(** * k8s-pods-debug (kpdbug): the debug-session lifecycle, embedded in Rocq

    A shallow embedding of package [plugin]: the security-profile resolver,
    the session builder, the collision check, the three operations
    (standalone pod, pod copy, ephemeral container), the session locator and
    the reclamation filter, followed by the properties proved about them.

    Go values are modelled as follows: pointers ([*bool], [*int64], struct
    pointers) are [option]s, [map[string]string] is a [gmap string string],
    slices are lists, [time.Time] and [time.Duration] are integers counted in
    nanoseconds, and an [error] is an [option error] ([None] is [nil]).
    Everything the program does to the outside (running [kubectl], reading
    the terminal, printing, logging, sleeping) goes through a state monad
    whose state holds the outside world and the trace of what was done. *)

From Stdlib Require Import ZArith String Ascii List DecimalString Lia.
From stdpp Require Import gmap strings.

Open Scope string_scope.
Open Scope Z_scope.

(** ** Strings: the pieces of [strings] and [fmt] the program uses *)

(** [%d] of an integer. *)
Definition itoa (z : Z) : string := NilZero.string_of_int (Z.to_int z).

(** [strings.Contains]. *)
Fixpoint Contains (s substr : string) : bool :=
  String.prefix substr s
  || match s with
     | EmptyString => false
     | String _ s' => Contains s' substr
     end.

(** The ASCII white space of [strings.TrimSpace] (its [asciiSpace] table):
    tab, line feed, vertical tab, form feed, carriage return and space. *)
Definition isSpace (c : ascii) : bool :=
  let n := nat_of_ascii c in
  (Nat.leb 9 n && Nat.leb n 13) || Nat.eqb n 32.

(** The other runes [unicode.IsSpace] accepts, as the bytes of their UTF-8
    encoding: U+0085 and U+00A0 take two bytes (C2 85, C2 A0); U+1680
    (E1 9A 80), U+2000 to U+200A (E2 80 80 to E2 80 8A), U+2028, U+2029,
    U+202F (E2 80 A8, A9, AF), U+205F (E2 81 9F) and U+3000 (E3 80 80) take
    three. *)
Definition isSpace2 (c1 c2 : ascii) : bool :=
  let n1 := nat_of_ascii c1 in
  let n2 := nat_of_ascii c2 in
  Nat.eqb n1 194 && (Nat.eqb n2 133 || Nat.eqb n2 160).

Definition isSpace3 (c1 c2 c3 : ascii) : bool :=
  let n1 := nat_of_ascii c1 in
  let n2 := nat_of_ascii c2 in
  let n3 := nat_of_ascii c3 in
  (Nat.eqb n1 225 && Nat.eqb n2 154 && Nat.eqb n3 128)
  || (Nat.eqb n1 226 && Nat.eqb n2 128
      && ((Nat.leb 128 n3 && Nat.leb n3 138)
          || Nat.eqb n3 168 || Nat.eqb n3 169 || Nat.eqb n3 175))
  || (Nat.eqb n1 226 && Nat.eqb n2 129 && Nat.eqb n3 159)
  || (Nat.eqb n1 227 && Nat.eqb n2 128 && Nat.eqb n3 128).

(** Dropping the white-space runes a string starts with.  Read
    [backwards], the string is a reversed one and so are the bytes of each
    rune: that is how the runes a string ends with are dropped.  (A byte
    sequence that is not the encoding of a white-space rune stops the
    trimming, as a rune that is not white space or an invalid byte does in
    Go.) *)
Fixpoint trimFront (backwards : bool) (s : string) : string :=
  match s with
  | EmptyString => EmptyString
  | String c1 s1 =>
      if isSpace c1 then trimFront backwards s1
      else
        match s1 with
        | EmptyString => s
        | String c2 s2 =>
            if (if backwards then isSpace2 c2 c1 else isSpace2 c1 c2)
            then trimFront backwards s2
            else
              match s2 with
              | EmptyString => s
              | String c3 s3 =>
                  if (if backwards then isSpace3 c3 c2 c1 else isSpace3 c1 c2 c3)
                  then trimFront backwards s3
                  else s
              end
        end
  end.

Definition reverse (s : string) : string :=
  string_of_list_ascii (List.rev (list_ascii_of_string s)).

Definition TrimLeft (s : string) : string := trimFront false s.

Definition TrimRight (s : string) : string := reverse (trimFront true (reverse s)).

(** [strings.TrimSpace]: leading and trailing white space, as
    [unicode.IsSpace] defines it, is removed. *)
Definition TrimSpace (s : string) : string := TrimRight (TrimLeft s).

Definition newline : ascii := ascii_of_nat 10.

(** [strings.Split(s, "\n")]: always at least one piece. *)
Fixpoint SplitLines (s : string) : list string :=
  match s with
  | EmptyString => [EmptyString]
  | String c s' =>
      if Ascii.eqb c newline then EmptyString :: SplitLines s'
      else match SplitLines s' with
           | [] => [String c EmptyString]
           | l :: ls => String c l :: ls
           end
  end.

Definition lowerAscii (c : ascii) : ascii :=
  let n := nat_of_ascii c in
  if Nat.leb 65 n && Nat.leb n 90 then ascii_of_nat (n + 32) else c.

(** [strings.ToLower], for the comparisons with [y] and [yes] it is used
    in: the ASCII letters are lowered, and the other bytes are kept (no
    rune beyond ASCII is lowered to one of the letters y, e and s). *)
Fixpoint ToLower (s : string) : string :=
  match s with
  | EmptyString => EmptyString
  | String c s' => String (lowerAscii c) (ToLower s')
  end.

(** [fmt.Sprintf("%04d", n)] for [n >= 0]: zero padding to width four. *)
Definition pad04 (n : Z) : string :=
  let d := itoa n in
  match (4 - String.length d)%nat with
  | 3%nat => "000" +:+ d
  | 2%nat => "00" +:+ d
  | 1%nat => "0" +:+ d
  | _ => d
  end.

Definition quote (s : string) : string := "'" +:+ s +:+ "'".

(** ** Errors (errors.go) *)

Inductive ErrorType :=
| ErrorTypePodNotFound
| ErrorTypePermission
| ErrorTypeNetwork
| ErrorTypeKubectl
| ErrorTypeValidation
| ErrorTypeTimeout
| ErrorTypeClusterAccess
| ErrorTypeResourceLimit.

(** A Go [error] value.  [ExitError] is [*exec.ExitError] (the command ran
    and exited unsuccessfully; its text is the process state, such as
    "exit status 1"); [errorString] is any other plain error
    ([fmt.Errorf], a command that could not be started); [Detailed] is
    [*DetailedError] with its five fields. *)
#[warnings="-register-all"]
Inductive error :=
| ExitError (ExitCode : Z) (text : string)
| errorString (text : string)
| Detailed (Type_ : ErrorType) (Message Suggestion Command : string)
           (OriginalErr : option error).

(** [err.Error()]. *)
Fixpoint Error (e : error) : string :=
  match e with
  | ExitError _ text => text
  | errorString text => text
  | Detailed _ msg sug cmd orig =>
      "❌ " +:+ msg +:+ String newline "" +:+
      (if String.eqb sug "" then ""
       else String newline "" +:+ "💡 Suggestion: " +:+ sug +:+ String newline "") +:+
      (if String.eqb cmd "" then ""
       else String newline "" +:+ "🔧 Try: " +:+ cmd +:+ String newline "") +:+
      match orig with
      | None => ""
      | Some o => String newline "" +:+ "🔍 Details: " +:+ Error o +:+ String newline ""
      end
  end.

Definition NewDetailedError (errorType : ErrorType) (message : string) : error :=
  Detailed errorType message "" "" None.

Definition WithSuggestion (e : error) (suggestion : string) : error :=
  match e with
  | Detailed t m _ c o => Detailed t m suggestion c o
  | _ => e
  end.

Definition WithCommand (e : error) (command : string) : error :=
  match e with
  | Detailed t m s _ o => Detailed t m s command o
  | _ => e
  end.

Definition WithOriginalError (e : error) (err : error) : error :=
  match e with
  | Detailed t m s c _ => Detailed t m s c (Some err)
  | _ => e
  end.

Definition NewPodNotFoundError (podName namespace : string) : error :=
  WithCommand
    (WithSuggestion
       (NewDetailedError ErrorTypePodNotFound
          ("Pod " +:+ quote podName +:+ " not found in namespace " +:+ quote namespace))
       "Check if the pod name is correct and the pod exists")
    ("kubectl get pods -n " +:+ namespace).

Definition NewPermissionError (operation : string) : error :=
  WithCommand
    (WithSuggestion
       (NewDetailedError ErrorTypePermission
          ("Permission denied for operation: " +:+ operation))
       "Check your RBAC permissions or contact your cluster administrator")
    "kubectl auth can-i create pods".

Definition NewClusterAccessError : error :=
  WithCommand
    (WithSuggestion
       (NewDetailedError ErrorTypeClusterAccess "Cannot connect to Kubernetes cluster")
       "Check your kubeconfig and cluster connectivity")
    "kubectl cluster-info".

Definition NewValidationError (field value reason : string) : error :=
  WithSuggestion
    (NewDetailedError ErrorTypeValidation
       ("Invalid " +:+ field +:+ ": " +:+ quote value +:+ " - " +:+ reason))
    "Check the parameter value and try again".

Definition NewTimeoutError (operation timeout : string) : error :=
  WithSuggestion
    (NewDetailedError ErrorTypeTimeout
       ("Operation " +:+ quote operation +:+ " timed out after " +:+ timeout))
    "The operation may take longer than expected. Try increasing the timeout or check cluster resources".

(** [WrapKubectlError] for a non-nil [err] (no caller passes [nil]). *)
Definition WrapKubectlError (err : error) (operation : string) : error :=
  let errStr := Error err in
  if Contains errStr "not found" then
    WithOriginalError
      (NewDetailedError ErrorTypePodNotFound ("Resource not found during " +:+ operation)) err
  else if Contains errStr "forbidden" then
    WithOriginalError (NewPermissionError operation) err
  else if Contains errStr "connection refused" then
    WithOriginalError NewClusterAccessError err
  else
    WithOriginalError (NewDetailedError ErrorTypeKubectl ("Failed to " +:+ operation)) err.

(** The [Type] field of a [*DetailedError]. *)
Definition errorTypeOf (e : error) : option ErrorType :=
  match e with
  | Detailed t _ _ _ _ => Some t
  | _ => None
  end.

(** ** Kubernetes objects: the fields of [corev1.Pod] the program reads or writes *)

Module corev1.

Inductive SeccompProfileType :=
| SeccompProfileTypeUnconfined
| SeccompProfileTypeRuntimeDefault
| SeccompProfileTypeLocalhost.

Record SeccompProfile := { SeccompType : SeccompProfileType }.

Record Capabilities := { Add : list string; Drop : list string }.

Record SecurityContext := {
  AllowPrivilegeEscalation : option bool;
  Privileged : option bool;
  ContainerCapabilities : option Capabilities;
  RunAsNonRoot : option bool;
  RunAsUser : option Z;
  ContainerSeccompProfile : option SeccompProfile
}.

Record PodSecurityContext := {
  PodRunAsNonRoot : option bool;
  PodRunAsUser : option Z;
  PodSeccompProfile : option SeccompProfile
}.

(** [corev1.Probe] with an exec handler. *)
Record Probe := {
  ExecCommandLine : list string;
  InitialDelaySeconds : Z;
  PeriodSeconds : Z
}.

(** [corev1.ResourceRequirements]; a quantity is kept as the text it was
    parsed from. *)
Record ResourceRequirements := {
  Limits : gmap string string;
  Requests : gmap string string
}.

Record Container := {
  ContainerName : string;
  Image : string;
  Command : list string;
  Stdin : bool;
  TTY : bool;
  ContainerSecurityContext : option SecurityContext;
  Resources : ResourceRequirements;
  LivenessProbe : option Probe;
  ReadinessProbe : option Probe
}.

Record PodSpec := {
  AutomountServiceAccountToken : option bool;
  TerminationGracePeriodSeconds : option Z;
  PodSecurity : option PodSecurityContext;
  ShareProcessNamespace : option bool;
  Containers : list Container;
  NodeName : string
}.

(** [time.Time] as nanoseconds since the epoch, [time.Duration] as
    nanoseconds. *)
Definition Time := Z.
Definition Duration := Z.

Record Pod := {
  APIVersion : string;
  Kind : string;
  Name : string;
  Namespace : string;
  Labels : gmap string string;
  CreationTimestamp : Time;
  Spec : PodSpec;
  Phase : string
}.

End corev1.

Import corev1.

(** ** Security Profile Resolver (debug.go) *)

Definition runtimeDefault : option SeccompProfile :=
  Some {| SeccompType := SeccompProfileTypeRuntimeDefault |}.

Definition unconfined : option SeccompProfile :=
  Some {| SeccompType := SeccompProfileTypeUnconfined |}.

(** [getSecurityContextForProfile]: both contexts start with the
    runtime-default seccomp profile and the [switch] fills in the rest;
    a name that matches no [case] leaves them as they started. *)
Definition getSecurityContextForProfile (profileName : string)
  : SecurityContext * PodSecurityContext :=
  let containerContext :=
    {| AllowPrivilegeEscalation := None; Privileged := None;
       ContainerCapabilities := None; RunAsNonRoot := None; RunAsUser := None;
       ContainerSeccompProfile := runtimeDefault |} in
  let podContext :=
    {| PodRunAsNonRoot := None; PodRunAsUser := None;
       PodSeccompProfile := runtimeDefault |} in
  if String.eqb profileName "restricted" then
    ({| AllowPrivilegeEscalation := Some false; Privileged := None;
        ContainerCapabilities := Some {| Add := []; Drop := ["ALL"] |};
        RunAsNonRoot := Some true; RunAsUser := Some 1000;
        ContainerSeccompProfile := runtimeDefault |},
     {| PodRunAsNonRoot := Some true; PodRunAsUser := Some 1000;
        PodSeccompProfile := runtimeDefault |})
  else if String.eqb profileName "baseline" then
    ({| AllowPrivilegeEscalation := Some false; Privileged := None;
        ContainerCapabilities := Some {| Add := []; Drop := ["ALL"] |};
        RunAsNonRoot := None; RunAsUser := None;
        ContainerSeccompProfile := runtimeDefault |},
     {| PodRunAsNonRoot := None; PodRunAsUser := None;
        PodSeccompProfile := runtimeDefault |})
  else if String.eqb profileName "privileged" then
    ({| AllowPrivilegeEscalation := Some true; Privileged := Some true;
        ContainerCapabilities := Some {| Add := ["ALL"]; Drop := [] |};
        RunAsNonRoot := None; RunAsUser := None;
        ContainerSeccompProfile := unconfined |},
     {| PodRunAsNonRoot := None; PodRunAsUser := None;
        PodSeccompProfile := unconfined |})
  else (containerContext, podContext).

(** The general policy as the specification words it: a container context
    and a pod context that carry the runtime-default seccomp type and
    nothing else. *)
Definition generalContainerPolicy : SecurityContext :=
  {| AllowPrivilegeEscalation := None; Privileged := None;
     ContainerCapabilities := None; RunAsNonRoot := None; RunAsUser := None;
     ContainerSeccompProfile := Some {| SeccompType := SeccompProfileTypeRuntimeDefault |} |}.

Definition generalPodPolicy : PodSecurityContext :=
  {| PodRunAsNonRoot := None; PodRunAsUser := None;
     PodSeccompProfile := Some {| SeccompType := SeccompProfileTypeRuntimeDefault |} |}.

(** ** The outside world

    [ExecCommand] is the seam the source already has ([var ExecCommand =
    exec.Command]): here it is a transition of the outside world that, given
    the arguments (and the manifest piped to standard input, if any),
    answers with the command's error, standard output and standard error.
    The other collaborators are the terminal, the clock, the random
    generator, the temporary-file system, and the library parsers
    ([json.Unmarshal], [resource.MustParse], [time.ParseDuration]); a parser
    answers [inl] with the value or [inr] with the error text. *)

Record CmdResult := {
  cmdErr : option error;
  cmdStdout : string;
  cmdStderr : string
}.

Inductive FileOp :=
| CreateTemp (pattern : string)
| WriteFile (name : string) (content : ResourceRequirements)
| CloseFile (name : string).

Class Outside := {
  World : Type;
  ExecCommand : string -> list string -> option Pod -> World -> CmdResult * World;
  (** [bufio.Reader.ReadString('\n')] on [os.Stdin] *)
  ReadString : World -> (string + error) * World;
  (** [fmt.Scanln(&response)]: what was scanned, the error being dropped *)
  Scanln : World -> string * World;
  (** [time.Now()] *)
  Now : World -> Time;
  (** [t.Format("150405")] *)
  Format150405 : Time -> string;
  (** [rand.Intn(n)] *)
  Intn : Z -> World -> Z * World;
  (** [os.CreateTemp], [Write], [Close]: the file name and the error *)
  FileSystem : FileOp -> World -> (string * option error) * World;
  UnmarshalLabels : string -> gmap string string + string;
  UnmarshalPod : string -> Pod + string;
  UnmarshalPodList : string -> list Pod + string;
  (** [resource.MustParse] succeeds *)
  validQuantity : string -> bool;
  ParseDuration : string -> Duration + string;
  (** [calculateAge]: the age column, formatted with floating point *)
  calculateAge : Time -> Time -> string
}.

(** What the program did, in order; a command is recorded with the answer
    it got. *)
Inductive Event :=
| Ran (name : string) (args : list string) (stdin : option Pod) (answer : CmdResult)
| Printed (text : string)
| Logged (text : string)
| ReadFromStdin
| Slept (d : Duration)
| SignalHandlerInstalled (debugPodName : string)
| FileOperation (op : FileOp)
| FileRemoved (name : string).

(** How a computation ends: with a value, by [os.Exit], or by a panic. *)
Inductive Ctl (A : Type) :=
| Val (a : A)
| Exited (code : Z)
| Panicked (msg : string).

Arguments Val {A} a.
Arguments Exited {A} code.
Arguments Panicked {A} msg.

Section Monad.

Context {Env : Outside}.

Record State := { world : World; trace : list Event }.

Definition start (w : World) : State := {| world := w; trace := [] |}.

Definition M (A : Type) : Type := State -> Ctl A * State.

Definition ret {A} (a : A) : M A := fun s => (Val a, s).

Definition bind {A B} (m : M A) (k : A -> M B) : M B :=
  fun s =>
    match m s with
    | (Val a, s') => k a s'
    | (Exited c, s') => (Exited c, s')
    | (Panicked msg, s') => (Panicked msg, s')
    end.

Definition emit (e : Event) : M unit :=
  fun s => (Val tt, {| world := world s; trace := trace s ++ [e] |}).

(** Lift a transition of the world, recording the event. *)
Definition call {A} (e : A -> Event) (f : World -> A * World) : M A :=
  fun s =>
    let '(a, w) := f (world s) in
    (Val a, {| world := w; trace := trace s ++ [e a] |}).

Definition os_Exit {A} (code : Z) : M A := fun s => (Exited code, s).
Definition panic {A} (msg : string) : M A := fun s => (Panicked msg, s).

End Monad.

Declare Scope go_scope.
Delimit Scope go_scope with go.
Notation "'let*' x ':=' c1 'in' c2" := (bind c1 (fun x => c2))
  (at level 10, x pattern, c1 at level 100, c2 at level 200) : go_scope.
Notation "c1 ';;;' c2" := (bind c1 (fun _ => c2))
  (at level 100, c2 at level 200, right associativity) : go_scope.
Open Scope go_scope.

(** ** Configuration (operations.go) *)

Inductive DebugOperation :=
| OperationStandalone
| OperationCopyPod
| OperationAddContainer
| OperationOther (n : Z).

Record DebugConfig := {
  Operation : DebugOperation;
  Namespace : string;
  PodName : string;
  Image : string;
  Interactive : bool;
  TTY : bool;
  RemoveAfter : bool;
  Force : bool;
  CopyPod : bool;
  Profile : string;
  CPURequest : string;
  MemoryLimit : string;
  MemoryRequest : string
}.

(** The package-level variables bound to command-line flags. *)
Record Flags := {
  namespace : string;
  podName : string;
  image : string;
  interactive : bool;
  tty : bool;
  removeAfter : bool;
  force : bool;
  copyPod : bool;
  profile : string;
  cpuRequest : string;
  memoryLimit : string;
  memoryRequest : string;
  listAllNamespaces : bool;
  cleanAllNamespaces : bool;
  cleanForce : bool;
  cleanOlderThan : string
}.

Definition NewDebugConfigFromFlags (f : Flags) : DebugConfig :=
  {| Operation :=
       if String.eqb (podName f) "" then OperationStandalone
       else if copyPod f then OperationCopyPod
       else OperationAddContainer;
     Namespace := namespace f;
     PodName := podName f;
     Image := image f;
     Interactive := interactive f;
     TTY := tty f;
     RemoveAfter := removeAfter f;
     Force := force f;
     CopyPod := copyPod f;
     Profile := profile f;
     CPURequest := cpuRequest f;
     MemoryLimit := memoryLimit f;
     MemoryRequest := memoryRequest f |}.

Definition sleepDuration : Duration := 1000000000.
Definition maxAttempts : Z := 30.

(** ** Discovery records (list.go) *)

Module Info.

Record DebugPodInfo := {
  Name : string;
  Namespace : string;
  TargetPod : string;
  Status : string;
  Age : string;
  CreationTimestamp : Time;
  Image : string;
  Node : string
}.

End Info.

Definition DebugPodInfo := Info.DebugPodInfo.

(** [time.Duration] is a 64-bit integer: negating the least value gives it
    back. *)
Definition minDuration : Duration := - 2 ^ 63.

Definition negDuration (d : Duration) : Duration :=
  if d =? minDuration then minDuration else - d.

(** [t.Add(d)] and [t.Before(u)] on wall-clock instants. *)
Definition Add_ (t : Time) (d : Duration) : Time := t + d.
Definition Before (t u : Time) : bool := t <? u.

Section Operations.

Context {Env : Outside}.

(** ** Effects the operations are written with *)

(** [ExecCommand(name, args...)] followed by [Run] or [Output]. *)
Definition runCommand (name : string) (args : list string) (stdin : option Pod)
  : M CmdResult :=
  call (Ran name args stdin) (ExecCommand name args stdin).

Definition log_Printf (text : string) : M unit := emit (Logged text).
Definition fmt_Printf (text : string) : M unit := emit (Printed text).
Definition time_Sleep (d : Duration) : M unit := emit (Slept d).

Definition fileOp (op : FileOp) : M (string * option error) :=
  call (fun _ => FileOperation op) (FileSystem op).

Definition readWorld {A} (f : World -> A) : M A :=
  fun s => (Val (f (world s)), s).

Definition stepWorld {A} (f : World -> A * World) : M A :=
  fun s => let '(a, w) := f (world s) in
           (Val a, {| world := w; trace := trace s |}).

(** [resource.MustParse]: panics on a malformed quantity. *)
Definition MustParse (s : string) : M string :=
  if validQuantity s then ret s
  else panic ("cannot parse " +:+ quote s +:+ ": quantities must match the regular expression").

(** ** Session Locator, for one target (debug.go) *)

(** The loop of [findExistingDebugPod]: the first line that is not blank,
    trimmed. *)
Fixpoint firstNonEmpty (lines : list string) : string :=
  match lines with
  | [] => ""
  | line :: rest =>
      let name := TrimSpace line in
      if String.eqb name "" then firstNonEmpty rest else name
  end.

(** The label selector and the arguments of the query made by
    [findExistingDebugPod]. *)
Definition labelSelector (config : DebugConfig) : string :=
  "debug-tool/type=debug-pod" +:+
  (if String.eqb (PodName config) "" then ""
   else ",debug-tool/target=" +:+ PodName config).

Definition findArgs (config : DebugConfig) : list string :=
  ["get"; "pod"; "-n"; Namespace config; "-l"; labelSelector config;
   "--no-headers"; "-o"; "custom-columns=:metadata.name"].

Definition findExistingDebugPod (config : DebugConfig) : M (string * option error) :=
  let* r := runCommand "kubectl" (findArgs config) None in
  match cmdErr r with
  | Some err =>
      if Contains (cmdStderr r) "No resources found" then ret ("", None)
      else ret ("", Some (errorString
                   ("error checking for existing pods: " +:+ Error err +:+ " - " +:+ cmdStderr r)))
  | None => ret (firstNonEmpty (SplitLines (cmdStdout r)), None)
  end.

(** ** Collision Reconciler: the prompt (debug.go) *)

Definition askForNewPod (config : DebugConfig) (existingPod : string) : M bool :=
  if Force config then ret true
  else
    fmt_Printf ("Debug pod " +:+ quote existingPod +:+ " already exists in namespace " +:+
                quote (Namespace config) +:+ ". Do you want to:" +:+ String newline "") ;;;
    fmt_Printf ("[1] Use existing pod" +:+ String newline "") ;;;
    fmt_Printf ("[2] Create new pod" +:+ String newline "") ;;;
    fmt_Printf "Choose (1/2) [1]: " ;;;
    let* r := call (fun _ => ReadFromStdin) ReadString in
    match r with
    | inr _ => ret false
    | inl response => ret (String.eqb (TrimSpace response) "2")
    end.

(** ** Session Namer (debug.go) *)

Definition generateUniqueName (config : DebugConfig) : M string :=
  let* now := readWorld Now in
  let timestamp := Format150405 now in
  let* n := stepWorld (Intn 10000) in
  let randomStr := pad04 n in
  if String.eqb (PodName config) "" then
    ret ("debug-" +:+ timestamp +:+ "-" +:+ randomStr)
  else
    ret ("debug-" +:+ PodName config +:+ "-" +:+ timestamp +:+ "-" +:+ randomStr).

(** ** Attach, delete, and the lookups on the target (debug.go) *)

Definition execArgs (debugPodName namespace : string) : list string :=
  ["exec"; "-it"; debugPodName; "-n"; namespace; "--"; "sh"].

Definition attachToPod (config : DebugConfig) (debugPodName : string) : M (option error) :=
  let* r := runCommand "kubectl" (execArgs debugPodName (Namespace config)) None in
  ret (cmdErr r).

(** The arguments of every pod deletion the program makes. *)
Definition deleteArgs (podName namespace : string) : list string :=
  ["delete"; "pod"; podName; "-n"; namespace].

Definition deletePod (config : DebugConfig) (debugPodName : string) : M (option error) :=
  let* r := runCommand "kubectl" (deleteArgs debugPodName (Namespace config)) None in
  ret (cmdErr r).

Definition basicLabels (config : DebugConfig) : gmap string string :=
  <["debug-tool/target" := PodName config]> {["debug-tool/type" := "debug-pod"]}.

Definition getTargetPodLabels (config : DebugConfig) : M (gmap string string + error) :=
  let* r := runCommand "kubectl"
              ["get"; "pod"; PodName config; "-n"; Namespace config; "-o";
               "jsonpath={.metadata.labels}"] None in
  match cmdErr r with
  | Some err =>
      ret (inr (errorString
             ("error getting target pod labels: " +:+ Error err +:+ " - " +:+ cmdStderr r)))
  | None =>
      if String.eqb (cmdStdout r) "" then ret (inl (basicLabels config))
      else match UnmarshalLabels (cmdStdout r) with
           | inr e =>
               log_Printf ("Warning: Error parsing labels JSON: " +:+ e +:+
                           ", using basic labels") ;;;
               ret (inl (basicLabels config))
           | inl labels => ret (inl labels)
           end
  end.

Definition phaseArgs (debugPodName namespace : string) : list string :=
  ["get"; "pod"; debugPodName; "-n"; namespace; "-o"; "jsonpath={.status.phase}"].

Fixpoint waitLoop (config : DebugConfig) (debugPodName : string) (attempts : nat)
  : M (option error) :=
  match attempts with
  | O => ret (Some (errorString
                ("pod did not become ready within " +:+ itoa maxAttempts +:+ " seconds")))
  | S n =>
      let* r := runCommand "kubectl" (phaseArgs debugPodName (Namespace config)) None in
      match cmdErr r with
      | None =>
          if String.eqb (cmdStdout r) "Running" then ret None
          else time_Sleep sleepDuration ;;; waitLoop config debugPodName n
      | Some _ => time_Sleep sleepDuration ;;; waitLoop config debugPodName n
      end
  end.

(** [waitForPod]: at most [maxAttempts] polls, one [sleepDuration] apart. *)
Definition waitForPod (config : DebugConfig) (debugPodName : string) : M (option error) :=
  waitLoop config debugPodName (Z.to_nat maxAttempts).

(** [getDeploymentSelectors]: the selector map (or [nil]) and the error. *)
Definition getDeploymentSelectors (config : DebugConfig)
  : M (option (gmap string string) * option error) :=
  let* r := runCommand "kubectl"
              ["get"; "pod"; PodName config; "-n"; Namespace config; "-o";
               "jsonpath={.metadata.ownerReferences[?(@.kind=='ReplicaSet')].name}"] None in
  match cmdErr r with
  | Some err =>
      ret (None, Some (errorString ("error getting pod owner reference: " +:+ Error err)))
  | None =>
      let replicaSetName := TrimSpace (cmdStdout r) in
      if String.eqb replicaSetName "" then ret (None, None)
      else
        let* r := runCommand "kubectl"
                    ["get"; "rs"; replicaSetName; "-n"; Namespace config; "-o";
                     "jsonpath={.metadata.ownerReferences[?(@.kind=='Deployment')].name}"] None in
        match cmdErr r with
        | Some err =>
            ret (None, Some (errorString
                   ("error getting replicaset owner reference: " +:+ Error err)))
        | None =>
            let deploymentName := TrimSpace (cmdStdout r) in
            if String.eqb deploymentName "" then ret (None, None)
            else
              let* r := runCommand "kubectl"
                          ["get"; "deployment"; deploymentName; "-n"; Namespace config; "-o";
                           "jsonpath={.spec.selector.matchLabels}"] None in
              match cmdErr r with
              | Some err =>
                  ret (None, Some (errorString
                         ("error getting deployment selector: " +:+ Error err)))
              | None =>
                  match UnmarshalLabels (cmdStdout r) with
                  | inr e =>
                      ret (None, Some (errorString
                             ("error parsing deployment selector: " +:+ e)))
                  | inl selectors => ret (Some selectors, None)
                  end
              end
        end
  end.

Definition getTargetPodSecurityContext (config : DebugConfig)
  : M (option PodSecurityContext * option error) :=
  let* r := runCommand "kubectl"
              ["get"; "pod"; PodName config; "-n"; Namespace config; "-o"; "json"] None in
  match cmdErr r with
  | Some err => ret (None, Some (errorString ("error getting pod info: " +:+ Error err)))
  | None =>
      match UnmarshalPod (cmdStdout r) with
      | inr e => ret (None, Some (errorString ("error parsing pod JSON: " +:+ e)))
      | inl pod => ret (PodSecurity (Spec pod), None)
      end
  end.

Definition getTargetContainerName (config : DebugConfig) : M (string * option error) :=
  let* r := runCommand "kubectl"
              ["get"; "pod"; PodName config; "-n"; Namespace config; "-o";
               "jsonpath={.spec.containers[0].name}"] None in
  match cmdErr r with
  | Some err => ret ("", Some (errorString ("error getting container name: " +:+ Error err)))
  | None => ret (TrimSpace (cmdStdout r), None)
  end.

(** [setupSignalHandler] installs the handler; [signalHandler] is what the
    handler does when the interrupt arrives. *)
Definition setupSignalHandler (config : DebugConfig) (debugPodName : string) : M unit :=
  emit (SignalHandlerInstalled debugPodName).

Definition signalHandler (config : DebugConfig) (debugPodName : string) : M unit :=
  log_Printf (String newline "" +:+ "Received interrupt signal, cleaning up...") ;;;
  let* err := deletePod config debugPodName in
  match err with
  | Some e => log_Printf ("Warning: Failed to delete pod " +:+ debugPodName +:+ ": " +:+ Error e)
  | None => ret tt
  end ;;;
  os_Exit 1.

(** ** Session Builder (debug.go) *)

(** The block [if config.PodName != ""] of [createDebugPod]: the target's
    security context is taken over only when it declares a run-as-user; the
    labels start from the target's labels when they could be read, receive
    the target label, and lose every key of the owning deployment's
    selector when that selector could be read.  The result is the label
    map, [podSpec.SecurityContext] and [podSpec.ShareProcessNamespace]. *)
Definition inheritFromTarget (config : DebugConfig) (labels : gmap string string)
  : M (gmap string string * option PodSecurityContext * option bool) :=
  let* sc := getTargetPodSecurityContext config in
  let* podSecurity :=
    match sc with
    | (_, Some err) =>
        log_Printf ("Warning: Could not get target pod security context: " +:+ Error err) ;;;
        ret None
    | (Some secContext, None) =>
        match PodRunAsUser secContext with
        | Some uid =>
            log_Printf ("Using security context from target pod (UID: " +:+ itoa uid +:+ ")") ;;;
            ret (Some secContext)
        | None =>
            log_Printf "No security context defined in target pod, using profile settings" ;;;
            ret None
        end
    | (None, None) =>
        log_Printf "No security context defined in target pod, using profile settings" ;;;
        ret None
    end in
  let* tl := getTargetPodLabels config in
  let labels := match tl with inl targetLabels => targetLabels | inr _ => labels end in
  let labels := <["debug-tool/target" := PodName config]> labels in
  let* ds := getDeploymentSelectors config in
  let labels :=
    match ds with
    | (Some deploymentSelectors, None) => labels ∖ deploymentSelectors
    | _ => labels
    end in
  ret (labels, podSecurity, Some true).

Definition probe : Probe :=
  {| ExecCommandLine := ["/bin/true"]; InitialDelaySeconds := 5; PeriodSeconds := 10 |}.

(** [createDebugPod]: builds the pod manifest and pipes it to
    [kubectl apply -f -].  ([yaml.Marshal] of the manifest does not fail;
    the manifest itself stands for its YAML text.) *)
Definition createDebugPod (config : DebugConfig) : M (string * option error) :=
  let* debugPodName := generateUniqueName config in
  log_Printf ("Generating debug pod name: " +:+ debugPodName) ;;;
  let labels : gmap string string := {["debug-tool/type" := "debug-pod"]} in
  let* (labels, podSecurity, shareProcessNamespace) :=
    if negb (String.eqb (PodName config) "") then inheritFromTarget config labels
    else ret (labels, None, None) in
  let* podSecurity :=
    match podSecurity with
    | None =>
        log_Printf ("Using security context from profile: " +:+ Profile config) ;;;
        ret (snd (getSecurityContextForProfile (Profile config)))
    | Some secContext => ret secContext
    end in
  let labels := <["debug-tool/type" := "debug-pod"]> labels in
  let containerContext := fst (getSecurityContextForProfile (Profile config)) in
  let containerContext :=
    match PodRunAsUser podSecurity with
    | Some uid =>
        {| AllowPrivilegeEscalation := AllowPrivilegeEscalation containerContext;
           Privileged := Privileged containerContext;
           ContainerCapabilities := ContainerCapabilities containerContext;
           RunAsNonRoot := PodRunAsNonRoot podSecurity;
           RunAsUser := Some uid;
           ContainerSeccompProfile := ContainerSeccompProfile containerContext |}
    | None => containerContext
    end in
  let command :=
    if Interactive config && TTY config then ["bash"] else ["sleep"; "infinity"] in
  let* limitMemory := MustParse (MemoryLimit config) in
  let* requestCPU := MustParse (CPURequest config) in
  let* requestMemory := MustParse (MemoryRequest config) in
  let debugPod :=
    {| APIVersion := "v1";
       Kind := "Pod";
       Name := debugPodName;
       corev1.Namespace := Namespace config;
       Labels := labels;
       CreationTimestamp := 0;
       Spec :=
         {| AutomountServiceAccountToken := Some false;
            TerminationGracePeriodSeconds := Some 0;
            PodSecurity := Some podSecurity;
            ShareProcessNamespace := shareProcessNamespace;
            Containers :=
              [ {| ContainerName := "debugger";
                   corev1.Image := Image config;
                   Command := command;
                   Stdin := true;
                   corev1.TTY := true;
                   ContainerSecurityContext := Some containerContext;
                   Resources :=
                     {| Limits := {["memory" := limitMemory]};
                        Requests := <["memory" := requestMemory]> {["cpu" := requestCPU]} |};
                   LivenessProbe := Some probe;
                   ReadinessProbe := Some probe |} ];
            NodeName := "" |};
       Phase := "" |} in
  log_Printf "Applying debug pod YAML..." ;;;
  let* r := runCommand "kubectl" ["apply"; "-f"; "-"] (Some debugPod) in
  match cmdErr r with
  | Some err =>
      ret ("", Some (errorString
                 ("error creating debug pod: " +:+ Error err +:+ " - " +:+ cmdStderr r)))
  | None =>
      log_Printf "Debug pod created successfully" ;;;
      ret (debugPodName, None)
  end.

(** ** The three operations (operations.go) *)

Definition accessHint (config : DebugConfig) (pod : string) : string :=
  "You can access the pod with: kubectl exec -it " +:+ pod +:+ " -n " +:+
  Namespace config +:+ " -- sh" +:+ String newline "".

Definition attachArgs (debugPodName namespace : string) : list string :=
  ["attach"; "-it"; debugPodName; "-n"; namespace].

(** The function deferred by [executeStandalone] when [--rm] is set. *)
Definition cleanupDebugPod (config : DebugConfig) (debugPodName : string) : M unit :=
  log_Printf ("Cleaning up debug pod " +:+ debugPodName +:+ "...") ;;;
  let* r := runCommand "kubectl" (deleteArgs debugPodName (Namespace config)) None in
  match cmdErr r with
  | Some err => log_Printf ("Warning: Failed to delete debug pod: " +:+ Error err)
  | None => log_Printf "Debug pod deleted successfully"
  end.

(** [executeStandalone] once the pod exists.  The cleanup is deferred only
    after the readiness wait, so the return on a timeout does not run it;
    [os.Exit] does not run deferred functions either. *)
Definition standaloneSession (config : DebugConfig) (debugPodName : string)
  : M (option error) :=
  (if RemoveAfter config then setupSignalHandler config debugPodName else ret tt) ;;;
  let* ready :=
    if Interactive config && TTY config then
      log_Printf "Waiting for pod to be ready..." ;;;
      waitForPod config debugPodName
    else ret None in
  match ready with
  | Some err =>
      ret (Some (WithOriginalError (NewTimeoutError "pod ready" "30s") err))
  | None =>
      let* result :=
        if Interactive config && TTY config then
          let* r := runCommand "kubectl" (attachArgs debugPodName (Namespace config)) None in
          match cmdErr r with
          | Some (ExitError code _) => os_Exit code
          | Some err => ret (Some (WrapKubectlError err "attach to pod"))
          | None => ret None
          end
        else
          log_Printf (accessHint config debugPodName) ;;;
          ret None in
      (if RemoveAfter config then cleanupDebugPod config debugPodName else ret tt) ;;;
      ret result
  end.

Definition executeStandalone (config : DebugConfig) : M (option error) :=
  let* (debugPodName, err) := createDebugPod config in
  match err with
  | Some err => ret (Some (WrapKubectlError err "create debug pod"))
  | None => standaloneSession config debugPodName
  end.

Definition verifyArgs (config : DebugConfig) : list string :=
  ["get"; "pod"; PodName config; "-n"; Namespace config].

Definition verifyTargetPod (config : DebugConfig) : M (option error) :=
  let* r := runCommand "kubectl" (verifyArgs config) None in
  match cmdErr r with
  | Some _ => ret (Some (NewPodNotFoundError (PodName config) (Namespace config)))
  | None => ret None
  end.

Definition useExistingPod (config : DebugConfig) (existingPod : string) : M (option error) :=
  log_Printf ("Using existing debug pod: " +:+ existingPod +:+ String newline "") ;;;
  if Interactive config && TTY config then
    log_Printf ("Attaching to pod..." +:+ String newline "") ;;;
    let* err := attachToPod config existingPod in
    match err with
    | Some err => ret (Some (WrapKubectlError err "attach to existing pod"))
    | None =>
        if RemoveAfter config then
          log_Printf ("Removing debug pod..." +:+ String newline "") ;;;
          let* err := deletePod config existingPod in
          match err with
          | Some err => ret (Some (WrapKubectlError err "delete pod"))
          | None => ret None
          end
        else ret None
    end
  else
    log_Printf (accessHint config existingPod) ;;;
    ret None.

(** The flags [-i], [-t] and the closing [--] shared by both [kubectl debug]
    invocations. *)
Definition terminalArgs (config : DebugConfig) : list string :=
  ((if Interactive config then ["-i"] else []) ++
   (if TTY config then ["-t"] else []) ++
   (if Interactive config && TTY config then ["--"] else []))%list.

(** [createPodCopy]: the copy is made by [kubectl debug --copy-to]; the
    resource shape goes through a temporary file, removed on return.
    ([yaml.Marshal] of the resource map does not fail.) *)
Definition createPodCopy (config : DebugConfig) : M (option error) :=
  let* debugPodName := generateUniqueName config in
  (if RemoveAfter config then setupSignalHandler config debugPodName else ret tt) ;;;
  let customDebug :=
    {| Limits := {["memory" := MemoryLimit config]};
       Requests := <["memory" := MemoryRequest config]> {["cpu" := CPURequest config]} |} in
  let* (tmpfile, err) := fileOp (CreateTemp "debug-custom-*.yaml") in
  match err with
  | Some err =>
      ret (Some (WithOriginalError
                   (NewDetailedError ErrorTypeValidation "failed to create temporary file") err))
  | None =>
      let* result :=
        let* (_, err) := fileOp (WriteFile tmpfile customDebug) in
        match err with
        | Some err =>
            ret (Some (WithOriginalError
                         (NewDetailedError ErrorTypeValidation
                            "failed to write custom debug configuration") err))
        | None =>
            let* (_, err) := fileOp (CloseFile tmpfile) in
            match err with
            | Some err =>
                ret (Some (WithOriginalError
                             (NewDetailedError ErrorTypeValidation
                                "failed to close temporary file") err))
            | None =>
                let* sc := getTargetPodSecurityContext config in
                let* secContext :=
                  match sc with
                  | (c, Some err) =>
                      log_Printf ("Warning: Could not get target pod security context: " +:+
                                  Error err) ;;;
                      ret c
                  | (c, None) => ret c
                  end in
                let hasRunAsUser :=
                  match secContext with
                  | Some c => match PodRunAsUser c with Some _ => true | None => false end
                  | None => false
                  end in
                let args : list string :=
                  (["debug"; PodName config; "-n"; Namespace config; "--image"; Image config;
                    "--share-processes"; "--copy-to=" +:+ debugPodName;
                    "--custom=" +:+ tmpfile] ++
                   (if hasRunAsUser || negb (String.eqb (Profile config) "") then
                      ["--profile=" +:+
                       (if String.eqb (Profile config) "" then "general" else Profile config)]
                    else []) ++
                   terminalArgs config)%list in
                log_Printf ("Creating debug pod " +:+ debugPodName +:+ " as a copy of " +:+
                            PodName config +:+ "..." +:+ String newline "") ;;;
                let* r := runCommand "kubectl" args None in
                match cmdErr r with
                | Some err => ret (Some (WrapKubectlError err "create debug pod copy"))
                | None =>
                    (if negb (Interactive config) || negb (TTY config)
                     then log_Printf (accessHint config debugPodName) else ret tt) ;;;
                    if RemoveAfter config && Interactive config && TTY config then
                      log_Printf ("Removing debug pod..." +:+ String newline "") ;;;
                      let* err := deletePod config debugPodName in
                      match err with
                      | Some err => ret (Some (WrapKubectlError err "delete debug pod"))
                      | None => ret None
                      end
                    else ret None
                end
            end
        end in
      emit (FileRemoved tmpfile) ;;;
      ret result
  end.

Definition executeCopyPod (config : DebugConfig) : M (option error) :=
  let* err := verifyTargetPod config in
  match err with
  | Some err => ret (Some err)
  | None =>
      if negb (Force config) then
        let* (existingPod, err) := findExistingDebugPod config in
        match err with
        | Some err => ret (Some (WrapKubectlError err "check existing debug pods"))
        | None =>
            if negb (String.eqb existingPod "") then
              let* new := askForNewPod config existingPod in
              if negb new then useExistingPod config existingPod
              else createPodCopy config
            else createPodCopy config
        end
      else createPodCopy config
  end.

Definition executeAddContainer (config : DebugConfig) : M (option error) :=
  let* err := verifyTargetPod config in
  match err with
  | Some err => ret (Some err)
  | None =>
      let* (containerName, err) := getTargetContainerName config in
      match err with
      | Some err => ret (Some (WrapKubectlError err "get target container name"))
      | None =>
          let args : list string :=
            (["debug"; PodName config; "-n"; Namespace config; "--image"; Image config;
              "--target=" +:+ containerName] ++
             (if negb (String.eqb (Profile config) "")
              then ["--profile=" +:+ Profile config] else ["--profile=general"]) ++
             terminalArgs config)%list in
          log_Printf ("Adding debug container to pod " +:+ PodName config +:+
                      " (targeting container " +:+ containerName +:+ ")..." +:+
                      String newline "") ;;;
          let* r := runCommand "kubectl" args None in
          ret (cmdErr r)
      end
  end.

(** [Execute]: dispatch on the operation. *)
Definition Execute (config : DebugConfig) : M (option error) :=
  match Operation config with
  | OperationStandalone => executeStandalone config
  | OperationCopyPod => executeCopyPod config
  | OperationAddContainer => executeAddContainer config
  | OperationOther _ =>
      ret (Some (NewValidationError "operation" "unknown" "invalid debug operation"))
  end.

(** [runDebug]. *)
Definition runDebug (f : Flags) : M (option error) :=
  Execute (NewDebugConfigFromFlags f).

(** ** Session Locator, for the whole namespace or cluster (list.go) *)

Definition toDebugPodInfo (now : Time) (pod : Pod) : DebugPodInfo :=
  {| Info.Name := corev1.Name pod;
     Info.Namespace := corev1.Namespace pod;
     Info.TargetPod :=
       match Labels pod !! "debug-tool/target" with
       | Some targetPod => targetPod
       | None => ""
       end;
     Info.Status := Phase pod;
     Info.Age := calculateAge now (corev1.CreationTimestamp pod);
     Info.CreationTimestamp := corev1.CreationTimestamp pod;
     Info.Image :=
       match Containers (Spec pod) with
       | c :: _ => corev1.Image c
       | [] => ""
       end;
     Info.Node := NodeName (Spec pod) |}.

(** The [args] of [getDebugPods]. *)
Definition listArgs (f : Flags) : list string :=
  if listAllNamespaces f then
    ["get"; "pods"; "--all-namespaces"; "-l"; "debug-tool/type=debug-pod"; "-o"; "json"]
  else
    ["get"; "pods"; "-n"; namespace f; "-l"; "debug-tool/type=debug-pod"; "-o"; "json"].

Definition getDebugPods (f : Flags) : M (list DebugPodInfo * option error) :=
  let* r := runCommand "kubectl" (listArgs f) None in
  match cmdErr r with
  | Some err =>
      if Contains (cmdStderr r) "No resources found" then ret ([], None)
      else ret ([], Some (errorString
                   ("error listing pods: " +:+ Error err +:+ " - " +:+ cmdStderr r)))
  | None =>
      match UnmarshalPodList (cmdStdout r) with
      | inr e => ret ([], Some (errorString ("error parsing pod list: " +:+ e)))
      | inl items =>
          let* now := readWorld Now in
          ret (map (toDebugPodInfo now) items, None)
      end
  end.

(** ** Reclamation (clean.go) *)

Definition filterPodsForCleanup (f : Flags) (pods : list DebugPodInfo)
  : M (list DebugPodInfo * option error) :=
  if String.eqb (cleanOlderThan f) "" then ret (pods, None)
  else
    match ParseDuration (cleanOlderThan f) with
    | inr e =>
        ret ([], Some (errorString ("invalid duration format for --older-than: " +:+ e)))
    | inl duration =>
        let* now := readWorld Now in
        let cutoff := Add_ now (negDuration duration) in
        ret (List.filter (fun pod => Before (Info.CreationTimestamp pod) cutoff) pods, None)
    end.

Definition askForConfirmation (prompt : string) : M bool :=
  fmt_Printf prompt ;;;
  let* response := call (fun _ => ReadFromStdin) Scanln in
  let response := ToLower (TrimSpace response) in
  ret (String.eqb response "y" || String.eqb response "yes").

Definition deletePodByName (podName namespace : string) : M (option error) :=
  let* r := runCommand "kubectl" (deleteArgs podName namespace) None in
  ret (cmdErr r).

Definition displayTarget (pod : DebugPodInfo) : string :=
  if String.eqb (Info.TargetPod pod) "" then "<standalone>" else Info.TargetPod pod.

(** The deletion loop of [runClean]: one failure is reported and the loop
    goes on; the result is the number of pods deleted. *)
Fixpoint deleteAll (pods : list DebugPodInfo) (deletedCount : Z) : M Z :=
  match pods with
  | [] => ret deletedCount
  | pod :: rest =>
      let* err := deletePodByName (Info.Name pod) (Info.Namespace pod) in
      match err with
      | Some e =>
          fmt_Printf ("Warning: Failed to delete pod " +:+ Info.Namespace pod +:+ "/" +:+
                      Info.Name pod +:+ ": " +:+ Error e +:+ String newline "") ;;;
          deleteAll rest deletedCount
      | None =>
          fmt_Printf ("Deleted debug pod " +:+ Info.Namespace pod +:+ "/" +:+
                      Info.Name pod +:+ String newline "") ;;;
          deleteAll rest (deletedCount + 1)
      end
  end.

Fixpoint announceAll (pods : list DebugPodInfo) : M unit :=
  match pods with
  | [] => ret tt
  | pod :: rest =>
      fmt_Printf ("  " +:+ Info.Namespace pod +:+ "/" +:+ Info.Name pod +:+ " (target: " +:+
                  displayTarget pod +:+ ", age: " +:+ Info.Age pod +:+ ")" +:+
                  String newline "") ;;;
      announceAll rest
  end.

Definition runClean (f : Flags) : M (option error) :=
  let* (debugPods, err) := getDebugPods f in
  match err with
  | Some err => ret (Some (errorString ("failed to get debug pods: " +:+ Error err)))
  | None =>
      match debugPods with
      | [] => fmt_Printf ("No debug pods found to clean" +:+ String newline "") ;;; ret None
      | _ =>
          let* (podsToDelete, err) := filterPodsForCleanup f debugPods in
          match err with
          | Some err => ret (Some (errorString ("failed to filter pods: " +:+ Error err)))
          | None =>
              match podsToDelete with
              | [] =>
                  fmt_Printf ("No debug pods match the cleanup criteria" +:+ String newline "") ;;;
                  ret None
              | _ =>
                  let* proceed :=
                    if negb (cleanForce f) then
                      fmt_Printf ("The following debug pods will be deleted:" +:+
                                  String newline "") ;;;
                      announceAll podsToDelete ;;;
                      askForConfirmation "Do you want to continue? (y/N): "
                    else ret true in
                  if negb proceed then
                    fmt_Printf ("Cleanup cancelled" +:+ String newline "") ;;; ret None
                  else
                    let* deletedCount := deleteAll podsToDelete 0 in
                    fmt_Printf ("Successfully deleted " +:+ itoa deletedCount +:+
                                " debug pods" +:+ String newline "") ;;;
                    ret None
              end
          end
      end
  end.

End Operations.

(** ** Reading a trace *)

(** The commands that bring a session into being: [kubectl apply] of a
    manifest and [kubectl debug]. *)
Definition creates (e : Event) : bool :=
  match e with
  | Ran _ ("apply" :: _) _ _ => true
  | Ran _ ("debug" :: _) _ _ => true
  | _ => false
  end.

Definition deletes (e : Event) : bool :=
  match e with
  | Ran _ ("delete" :: _) _ _ => true
  | _ => false
  end.

(** The labels the program itself gives to the object a command creates:
    those of the manifest it pipes in; a command without a manifest is given
    none. *)
Definition labelsGiven (e : Event) : gmap string string :=
  match e with
  | Ran _ _ (Some pod) _ => Labels pod
  | _ => ∅
  end.

Definition manifestOf (e : Event) : option Pod :=
  match e with
  | Ran _ _ stdin _ => stdin
  | _ => None
  end.

(** The arguments of the command that reads the selector of a deployment
    ([getDeploymentSelectors], its third command). *)
Definition isSelectorQuery (args : list string) : bool :=
  match args with
  | [a1; a2; _; a4; _; a6; a7] =>
      String.eqb a1 "get" && String.eqb a2 "deployment" && String.eqb a4 "-n"
      && String.eqb a6 "-o" && String.eqb a7 "jsonpath={.spec.selector.matchLabels}"
  | _ => false
  end.

(** The deployment selector an event reads: the command succeeded and its
    output decodes. *)
Definition selectorRead {Env : Outside} (e : Event) : option (gmap string string) :=
  match e with
  | Ran _ args _ r =>
      if isSelectorQuery args then
        match cmdErr r with
        | Some _ => None
        | None =>
            match UnmarshalLabels (cmdStdout r) with
            | inl selectors => Some selectors
            | inr _ => None
            end
        end
      else None
  | _ => None
  end.

(** The selector the event reads, if it reads one, does not list the
    target-reference key. *)
Definition sparesTarget {Env : Outside} (e : Event) : bool :=
  match selectorRead e with
  | Some selectors => bool_decide (selectors !! "debug-tool/target" = None)
  | None => true
  end.

(** The arguments of the commands run, in order. *)
Fixpoint commands (t : list Event) : list (list string) :=
  match t with
  | [] => []
  | Ran _ args _ _ :: rest => args :: commands rest
  | _ :: rest => commands rest
  end.



(** A string without a line feed. *)
Fixpoint oneLine (s : string) : bool :=
  match s with
  | EmptyString => true
  | String c s' => negb (Ascii.eqb c newline) && oneLine s'
  end.

(** A name as kubectl prints it on a line of its own: not empty, within
    one line, and without white space around it. *)
Definition cleanName (s : string) : Prop :=
  s <> "" /\ oneLine s = true /\ TrimSpace s = s.

(** A byte of a name of a Kubernetes object: ASCII, and not white space. *)
Definition nameByte (c : ascii) : bool :=
  negb (isSpace c) && Nat.ltb (nat_of_ascii c) 128.

Definition asciiName (s : string) : bool :=
  forallb nameByte (list_ascii_of_string s).

(** The readiness wait runs dry from world [w]: each of the next [n] polls
    is answered with an error or with a phase other than [Running]. *)
Fixpoint neverReady {Env : Outside} (debugPodName namespace : string) (n : nat) (w : World)
  : Prop :=
  match n with
  | O => True
  | S n' =>
      let '(r, w') := ExecCommand "kubectl" (phaseArgs debugPodName namespace) None w in
      (cmdErr r <> None \/ cmdStdout r <> "Running") /\
      neverReady debugPodName namespace n' w'
  end.

(** The response shape the locator reads as "nothing there": the command
    failed and its standard error says [No resources found]. *)
Definition noResourcesFound (r : CmdResult) : Prop :=
  cmdErr r <> None /\ Contains (cmdStderr r) "No resources found" = true.

(** ** A scripted cluster, for the examples

    kubectl answers by its arguments from a fixed table, the operator's
    lines are typed ahead, the clock stands still, and the documents the
    decoders understand are the few the examples use. *)

Record Scripted := {
  answers : list (list string * CmdResult);
  otherwise : CmdResult;
  keyboard : list string;
  clock : Time
}.

Fixpoint sameArgs (a b : list string) : bool :=
  match a, b with
  | [], [] => true
  | x :: a', y :: b' => String.eqb x y && sameArgs a' b'
  | _, _ => false
  end.

Fixpoint answerOf (table : list (list string * CmdResult)) (fallback : CmdResult)
  (args : list string) : CmdResult :=
  match table with
  | [] => fallback
  | (a, r) :: rest => if sameArgs a args then r else answerOf rest fallback args
  end.

Definition succeeded (out : string) : CmdResult :=
  {| cmdErr := None; cmdStdout := out; cmdStderr := "" |}.

Definition failed (code : Z) (err : string) : CmdResult :=
  {| cmdErr := Some (ExitError code ("exit status " +:+ itoa code));
     cmdStdout := ""; cmdStderr := err |}.

Definition typeAhead (w : Scripted) : option string * Scripted :=
  match keyboard w with
  | [] => (None, w)
  | line :: rest =>
      (Some line, {| answers := answers w; otherwise := otherwise w;
                     keyboard := rest; clock := clock w |})
  end.

Definition nl : string := String newline "".

Definition scriptedLabels (doc : string) : gmap string string + string :=
  if String.eqb doc "{app:x,pod-template-hash:abc}" then
    inl (<["app" := "x"]> {["pod-template-hash" := "abc"]})
  else if String.eqb doc "{app:x}" then inl {["app" := "x"]}
  else if String.eqb doc "{app:x,debug-tool/target:web}" then
    inl (<["app" := "x"]> {["debug-tool/target" := "web"]})
  else inr "invalid character".

Definition emptySpec : PodSpec :=
  {| AutomountServiceAccountToken := None; TerminationGracePeriodSeconds := None;
     PodSecurity := None; ShareProcessNamespace := None; Containers := [];
     NodeName := "node-1" |}.

Definition scriptedPod (name : string) (created : Time) : Pod :=
  {| APIVersion := "v1"; Kind := "Pod"; corev1.Name := name;
     corev1.Namespace := "default";
     Labels := {["debug-tool/type" := "debug-pod"]};
     corev1.CreationTimestamp := created; Spec := emptySpec; Phase := "Running" |}.

Definition scriptedPodDoc (doc : string) : Pod + string :=
  if String.eqb doc "{pod web}" then inl (scriptedPod "web" 0)
  else inr "unexpected end of JSON input".

Definition minute : Duration := 60 * 1000000000.
Definition hour : Duration := 60 * minute.

(** Three sessions aged ten minutes, two hours and three hours at noon. *)
Definition noon : Time := 12 * hour.

Definition threeSessions : list Pod :=
  [scriptedPod "debug-a" (noon - 10 * minute);
   scriptedPod "debug-b" (noon - 2 * hour);
   scriptedPod "debug-c" (noon - 3 * hour)].

Definition scriptedPodList (doc : string) : list Pod + string :=
  if String.eqb doc "{items:[]}" then inl []
  else if String.eqb doc "{items:[a,b,c]}" then inl threeSessions
  else inr "unexpected end of JSON input".

(** Whole hours, minutes and seconds, as [time.ParseDuration] reads them,
    and the least duration there is: [-9223372036854775808ns] is -2^63
    nanoseconds, which [time.ParseDuration] accepts (so it does
    [-2562047h47m16.854775808s], the same value). *)
Definition scriptedDuration (s : string) : Duration + string :=
  if String.eqb s "1h" then inl hour
  else if String.eqb s "30m" then inl (30 * minute)
  else if String.eqb s "90s" then inl (90 * 1000000000)
  else if String.eqb s "-9223372036854775808ns" then inl minDuration
  else inr ("time: invalid duration " +:+ quote s).

Definition scripted : Outside :=
  {| World := Scripted;
     ExecCommand := fun _ args _ w => (answerOf (answers w) (otherwise w) args, w);
     ReadString := fun w =>
       match typeAhead w with
       | (Some line, w') => (inl (line +:+ nl), w')
       | (None, w') => (inr (errorString "EOF"), w')
       end;
     Scanln := fun w =>
       match typeAhead w with
       | (Some line, w') => (line, w')
       | (None, w') => ("", w')
       end;
     Now := clock;
     Format150405 := fun _ => "120000";
     Intn := fun _ w => (42, w);
     FileSystem := fun op w =>
       match op with
       | CreateTemp _ => (("/tmp/debug-custom-1.yaml", None), w)
       | WriteFile name _ => ((name, None), w)
       | CloseFile name => ((name, None), w)
       end;
     UnmarshalLabels := scriptedLabels;
     UnmarshalPod := scriptedPodDoc;
     UnmarshalPodList := scriptedPodList;
     validQuantity := fun s => negb (String.eqb s "");
     ParseDuration := scriptedDuration;
     calculateAge := fun _ _ => "-" |}.

(** The target [web] in namespace [default], debugged interactively. *)
Definition webConfig (op : DebugOperation) (rm : bool) : DebugConfig :=
  {| Operation := op; Namespace := "default"; PodName := "web";
     Image := "debug:latest"; Interactive := true; TTY := true;
     RemoveAfter := rm; Force := false; CopyPod := false; Profile := "general";
     CPURequest := "100m"; MemoryLimit := "128Mi"; MemoryRequest := "128Mi" |}.

(** A standalone session, without a target. *)
Definition soloConfig (rm : bool) : DebugConfig :=
  {| Operation := OperationStandalone; Namespace := "default"; PodName := "";
     Image := "debug:latest"; Interactive := true; TTY := true;
     RemoveAfter := rm; Force := false; CopyPod := false; Profile := "restricted";
     CPURequest := "100m"; MemoryLimit := "128Mi"; MemoryRequest := "128Mi" |}.

(** The same session asked for without a terminal. *)
Definition detached (c : DebugConfig) : DebugConfig :=
  {| Operation := Operation c; Namespace := Namespace c; PodName := PodName c;
     Image := Image c; Interactive := false; TTY := false;
     RemoveAfter := RemoveAfter c; Force := Force c; CopyPod := CopyPod c;
     Profile := Profile c; CPURequest := CPURequest c;
     MemoryLimit := MemoryLimit c; MemoryRequest := MemoryRequest c |}.

(** A cluster in which [web] runs under a deployment selecting [app=x], two
    earlier debug sessions for [web] exist, and every other command
    succeeds silently. *)
Definition webCluster (typed : list string) : Scripted :=
  {| answers :=
       [ (findArgs (webConfig OperationCopyPod false),
          succeeded ("debug-web-1" +:+ nl +:+ "debug-web-2" +:+ nl));
         (["get"; "pod"; "web"; "-n"; "default"; "-o"; "jsonpath={.metadata.labels}"],
          succeeded "{app:x,pod-template-hash:abc}");
         (["get"; "pod"; "web"; "-n"; "default"; "-o";
           "jsonpath={.metadata.ownerReferences[?(@.kind=='ReplicaSet')].name}"],
          succeeded "web-rs");
         (["get"; "rs"; "web-rs"; "-n"; "default"; "-o";
           "jsonpath={.metadata.ownerReferences[?(@.kind=='Deployment')].name}"],
          succeeded "web-deploy");
         (["get"; "deployment"; "web-deploy"; "-n"; "default"; "-o";
           "jsonpath={.spec.selector.matchLabels}"],
          succeeded "{app:x}");
         (["get"; "pod"; "web"; "-n"; "default"; "-o"; "json"], succeeded "{pod web}");
         (["get"; "pod"; "web"; "-n"; "default"; "-o"; "jsonpath={.spec.containers[0].name}"],
          succeeded "app") ];
     otherwise := succeeded "";
     keyboard := typed;
     clock := noon |}.

(** A cluster where nothing is ever ready and every deletion answers that
    the pod is not found. *)
Definition goneCluster : Scripted :=
  {| answers :=
       [ (["apply"; "-f"; "-"], succeeded "pod/debug-120000-0042 created");
         (execArgs "debug-web-1" "default", succeeded "");
         (phaseArgs "debug-120000-0042" "default", succeeded "Pending") ];
     otherwise := failed 1 "Error from server (NotFound): pods not found";
     keyboard := [];
     clock := noon |}.

(** ** More examples *)

(** Flags of [kpdbug clean --older-than <threshold>]. *)
Definition olderThan (threshold : string) : Flags :=
  {| namespace := "default"; podName := ""; image := "debug:latest";
     interactive := false; tty := false; removeAfter := false; force := false;
     copyPod := false; profile := "general"; cpuRequest := "100m";
     memoryLimit := "128Mi"; memoryRequest := "128Mi";
     listAllNamespaces := false; cleanAllNamespaces := false; cleanForce := false;
     cleanOlderThan := threshold |}.

(** The three sessions as discovery records. *)
Definition threeRecords : list DebugPodInfo :=
  map (@toDebugPodInfo scripted noon) threeSessions.

(** A cluster without any debug session: the listing gets an empty item
    list, every other query the "No resources found" failure. *)
Definition emptyCluster : Scripted :=
  {| answers := [ (listArgs (olderThan ""), succeeded "{items:[]}") ];
     otherwise := failed 1 "No resources found in default namespace.";
     keyboard := [];
     clock := noon |}.

(** The cluster of [web] again, with a deployment whose selector lists the
    target-reference key as well. *)
Definition claimingCluster : Scripted :=
  {| answers :=
       (["get"; "deployment"; "web-deploy"; "-n"; "default"; "-o";
         "jsonpath={.spec.selector.matchLabels}"],
        succeeded "{app:x,debug-tool/target:web}") :: answers (webCluster []);
     otherwise := succeeded "";
     keyboard := [];
     clock := noon |}.

(** A cluster whose listing shows the three sessions. *)
Definition busyCluster : Scripted :=
  {| answers := [ (listArgs (olderThan ""), succeeded "{items:[a,b,c]}") ];
     otherwise := succeeded "";
     keyboard := [];
     clock := noon |}.

(** One discovery record, for the session [debug-web-1]. *)
Definition staleRecord : DebugPodInfo :=
  {| Info.Name := "debug-web-1"; Info.Namespace := "default"; Info.TargetPod := "web";
     Info.Status := "Running"; Info.Age := "2h"; Info.CreationTimestamp := noon - 2 * hour;
     Info.Image := "debug:latest"; Info.Node := "node-1" |}.

(** ** Predicates on computations

    [produces m Post Q]: from any state, [m] extends the trace with events
    that all satisfy [Q], and when it returns a value, the value satisfies
    [Post].  [returns m]: from any state, [m] returns a value (it neither
    exits nor panics). *)

Definition produces {Env : Outside} {A} (m : M A) (Post : A -> Prop) (Q : Event -> Prop)
  : Prop :=
  forall s, exists evs,
    trace (snd (m s)) = (trace s ++ evs)%list
    /\ Forall Q evs
    /\ match fst (m s) with Val a => Post a | _ => True end.

Definition returns {Env : Outside} {A} (m : M A) : Prop :=
  forall s, exists a s', m s = (Val a, s').

(** What the lookups on the target do: [kubectl get] without a manifest,
    and log lines. *)
Definition lookupOnly (e : Event) : Prop :=
  match e with
  | Ran _ args None _ => hd "" args = "get"
  | Logged _ => True
  | _ => False
  end.

(** The two fixed fields of a manifest the builder pipes to kubectl. *)
Definition specInvariants (e : Event) : Prop :=
  forall pod, manifestOf e = Some pod ->
    AutomountServiceAccountToken (Spec pod) = Some false
    /\ TerminationGracePeriodSeconds (Spec pod) = Some 0.

(** The labels of a manifest piped to kubectl: the discovery label, and
    the target-reference label of [config]'s target. *)
Definition typeLabelled (e : Event) : Prop :=
  forall pod, manifestOf e = Some pod ->
    Labels pod !! "debug-tool/type" = Some "debug-pod".

Definition targetLabelled (config : DebugConfig) (e : Event) : Prop :=
  forall pod, manifestOf e = Some pod ->
    Labels pod !! "debug-tool/target" = Some (PodName config).


(** A failed delete command decides the result: whenever a delete command
    among [evs] was answered with an error, the operation's result is that
    error, wrapped for the step [what]. *)
Definition deleteDecides (what : string) (res : option error) (evs : list Event) : Prop :=
  forall name args r e,
    In (Ran name ("delete" :: args) None r) evs ->
    cmdErr r = Some e ->
    res = Some (WrapKubectlError e what).

(** [yields m R]: from any state, when [m] returns a value, the value and
    the events [m] added are related by [R]. *)
Definition yields {Env : Outside} {A} (m : M A) (R : A -> list Event -> Prop) : Prop :=
  forall s, exists evs,
    trace (snd (m s)) = (trace s ++ evs)%list
    /\ forall a, fst (m s) = Val a -> R a evs.

(** The delete commands answered without an error, counted. *)
Fixpoint deleted (evs : list Event) : Z :=
  match evs with
  | [] => 0
  | Ran _ ("delete" :: _) _ r :: rest =>
      (match cmdErr r with None => 1 | Some _ => 0 end) + deleted rest
  | _ :: rest => deleted rest
  end.

(** * Properties *)

(** ** Security Profile Resolver *)

(** C5. For every profile name outside the four recognized values
    (restricted, baseline, general, privileged), the resolver returns
    exactly the general policy: a container context and a pod context that
    carry only the runtime-default seccomp type, with no capability change,
    no run-as-user and no privilege-escalation setting; it is also what the
    name [general] itself resolves to. *)
Theorem unrecognized_profile_is_general (profileName : string) :
  profileName <> "restricted" ->
  profileName <> "baseline" ->
  profileName <> "general" ->
  profileName <> "privileged" ->
  getSecurityContextForProfile profileName = (generalContainerPolicy, generalPodPolicy)
  /\ getSecurityContextForProfile profileName = getSecurityContextForProfile "general"
  /\ ContainerCapabilities (fst (getSecurityContextForProfile profileName)) = None
  /\ RunAsUser (fst (getSecurityContextForProfile profileName)) = None
  /\ AllowPrivilegeEscalation (fst (getSecurityContextForProfile profileName)) = None.
Proof.
  intros Hr Hb _ Hp.
  assert (E : getSecurityContextForProfile profileName
              = (generalContainerPolicy, generalPodPolicy)).
  { unfold getSecurityContextForProfile.
    destruct (String.eqb_spec profileName "restricted") as [->|_]; [congruence|].
    destruct (String.eqb_spec profileName "baseline") as [->|_]; [congruence|].
    destruct (String.eqb_spec profileName "privileged") as [->|_]; [congruence|].
    reflexivity. }
  rewrite E. repeat split.
Qed.

Lemma unrecognized_profile_is_general_witness :
  getSecurityContextForProfile "restrictd" = (generalContainerPolicy, generalPodPolicy)
  /\ getSecurityContextForProfile "restrictd" = getSecurityContextForProfile "general"
  /\ ContainerCapabilities (fst (getSecurityContextForProfile "restrictd")) = None
  /\ RunAsUser (fst (getSecurityContextForProfile "restrictd")) = None
  /\ AllowPrivilegeEscalation (fst (getSecurityContextForProfile "restrictd")) = None.
Proof.
  apply (unrecognized_profile_is_general "restrictd"); discriminate.
Defined.

(** C6. The container policy resolved for [restricted] has privilege
    escalation disabled, all capabilities dropped, run-as-non-root enforced
    and the fixed non-zero user 1000; the one resolved for [privileged] has
    privilege escalation enabled, all capabilities added and the seccomp
    type unconfined. *)
Theorem restricted_and_privileged_policies :
  let restricted := fst (getSecurityContextForProfile "restricted") in
  let privileged := fst (getSecurityContextForProfile "privileged") in
  AllowPrivilegeEscalation restricted = Some false
  /\ ContainerCapabilities restricted = Some {| Add := []; Drop := ["ALL"] |}
  /\ RunAsNonRoot restricted = Some true
  /\ RunAsUser restricted = Some 1000
  /\ 1000 <> 0
  /\ AllowPrivilegeEscalation privileged = Some true
  /\ ContainerCapabilities privileged = Some {| Add := ["ALL"]; Drop := [] |}
  /\ ContainerSeccompProfile privileged
     = Some {| SeccompType := SeccompProfileTypeUnconfined |}.
Proof.
  cbv zeta. repeat split. discriminate.
Qed.

(** ** Reasoning about computations *)

Section Produces.

Context {Env : Outside}.

Lemma produces_ret {A} (a : A) (Post : A -> Prop) Q :
  Post a -> produces (ret a) Post Q.
Proof.
  intros H s. exists []. simpl. rewrite app_nil_r. auto.
Qed.

Lemma produces_bind {A B} (m : M A) (k : A -> M B) Post1 Post2 Q :
  produces m Post1 Q ->
  (forall a, Post1 a -> produces (k a) Post2 Q) ->
  produces (bind m k) Post2 Q.
Proof.
  intros Hm Hk s. unfold bind.
  destruct (Hm s) as (evs1 & Ht & Hq & Hp).
  destruct (m s) as [[a | c | msg] s1]; simpl in *.
  - destruct (Hk a Hp s1) as (evs2 & Ht2 & Hq2 & Hp2).
    exists (evs1 ++ evs2)%list. rewrite Ht2, Ht, app_assoc.
    split; [reflexivity|]. split; [apply Forall_app; auto | exact Hp2].
  - exists evs1. auto.
  - exists evs1. auto.
Qed.

Lemma produces_emit (e : Event) (Post : unit -> Prop) (Q : Event -> Prop) :
  Q e -> Post tt -> produces (emit e) Post Q.
Proof.
  intros He Hp s. exists [e]. simpl. auto.
Qed.

Lemma produces_call {A} (e : A -> Event) (f : World -> A * World)
      (Post : A -> Prop) (Q : Event -> Prop) :
  (forall a, Q (e a) /\ Post a) -> produces (call e f) Post Q.
Proof.
  intros H s. unfold call. destruct (f (world s)) as [a w]. simpl.
  exists [e a]. destruct (H a). auto.
Qed.

Lemma produces_readWorld {A} (f : World -> A) (Post : A -> Prop) Q :
  (forall a, Post a) -> produces (readWorld f) Post Q.
Proof.
  intros H s. exists []. simpl. rewrite app_nil_r. auto.
Qed.

Lemma produces_stepWorld {A} (f : World -> A * World) (Post : A -> Prop) Q :
  (forall a, Post a) -> produces (stepWorld f) Post Q.
Proof.
  intros H s. unfold stepWorld. destruct (f (world s)) as [a w]. simpl.
  exists []. rewrite app_nil_r. auto.
Qed.

Lemma produces_exit {A} (code : Z) (Post : A -> Prop) Q :
  produces (os_Exit code) Post Q.
Proof.
  intros s. exists []. simpl. rewrite app_nil_r. auto.
Qed.

Lemma produces_panic {A} (msg : string) (Post : A -> Prop) Q :
  produces (panic msg) Post Q.
Proof.
  intros s. exists []. simpl. rewrite app_nil_r. auto.
Qed.

Lemma produces_weaken {A} (m : M A) (Post Post' : A -> Prop) (Q Q' : Event -> Prop) :
  produces m Post Q ->
  (forall a, Post a -> Post' a) ->
  (forall e, Q e -> Q' e) ->
  produces m Post' Q'.
Proof.
  intros H HP HQ s. destruct (H s) as (evs & Ht & Hq & Hp).
  exists evs. split; [exact Ht|]. split.
  - eapply Forall_impl; eauto.
  - destruct (fst (m s)); auto.
Qed.

(** What a run returned can be added to the postcondition. *)
Lemma produces_result {A} (m : M A) (Post P : A -> Prop) Q :
  produces m Post Q ->
  (forall s a s', m s = (Val a, s') -> P a) ->
  produces m (fun a => Post a /\ P a) Q.
Proof.
  intros H HP s. destruct (H s) as (evs & Ht & Hq & Hp).
  exists evs. split; [exact Ht|]. split; [exact Hq|].
  destruct (m s) as [[a | |] s'] eqn:E; simpl in *; auto.
  split; [exact Hp | eapply HP; eauto].
Qed.

Lemma produces_run {A} (m : M A) Post Q (w : World) :
  produces m Post Q -> Forall Q (trace (snd (m (start w)))).
Proof.
  intros H. destruct (H (start w)) as (evs & Ht & Hq & _).
  rewrite Ht. exact Hq.
Qed.

End Produces.


(** The lemmas already proved about the operations, found by the head of
    the computation; the list grows as the development goes. *)
Ltac produces_known := fail.

(** One step of a [produces] proof: the rule for the head of the
    computation, a case split on what it branches on, or the unfolding of
    one of the effects. *)
Ltac produces_step :=
  first
    [ apply produces_ret
    | apply produces_exit
    | apply produces_panic
    | eapply produces_bind; [ solve [produces_known] | intros ]
    | eapply (produces_bind _ _ (fun _ => True)); [| intros ]
    | apply produces_emit
    | apply produces_call; intros
    | apply produces_readWorld; intros
    | apply produces_stepWorld; intros
    | match goal with
      | |- produces (match ?x with _ => _ end) _ _ => destruct x
      | |- produces (let '(_, _) := ?x in _) _ _ => destruct x
      | |- produces (if ?b then _ else _) _ _ => destruct b
      end
    | progress cbv beta zeta
    | progress unfold runCommand, log_Printf, fmt_Printf, time_Sleep, fileOp, MustParse,
                      setupSignalHandler ].

(** ** The lookups only look

    The helpers that read the target run [kubectl get] commands without a
    manifest and write log lines, whatever the cluster answers. *)

Ltac produces_side HQ :=
  try solve [ exact I | auto
            | apply HQ; first [exact I | reflexivity]
            | split; [apply HQ; first [exact I | reflexivity] | exact I] ].

Ltac produces_auto HQ :=
  repeat (produces_step; produces_side HQ).

Section Lookups.

Context {Env : Outside}.
Variable Q : Event -> Prop.
Hypothesis HQ : forall e, lookupOnly e -> Q e.

Lemma generateUniqueName_quiet config :
  produces (generateUniqueName config) (fun _ => True) Q.
Proof. unfold generateUniqueName. produces_auto HQ. Qed.

Lemma getTargetPodSecurityContext_lookup config :
  produces (getTargetPodSecurityContext config) (fun _ => True) Q.
Proof. unfold getTargetPodSecurityContext. produces_auto HQ. Qed.

Lemma getTargetPodLabels_lookup config :
  produces (getTargetPodLabels config) (fun _ => True) Q.
Proof. unfold getTargetPodLabels. produces_auto HQ. Qed.

Lemma getDeploymentSelectors_lookup config :
  produces (getDeploymentSelectors config) (fun _ => True) Q.
Proof. unfold getDeploymentSelectors. produces_auto HQ. Qed.

Lemma getTargetContainerName_lookup config :
  produces (getTargetContainerName config) (fun _ => True) Q.
Proof. unfold getTargetContainerName. produces_auto HQ. Qed.

Lemma verifyTargetPod_lookup config :
  produces (verifyTargetPod config) (fun _ => True) Q.
Proof. unfold verifyTargetPod, verifyArgs. produces_auto HQ. Qed.

Lemma findExistingDebugPod_lookup config :
  produces (findExistingDebugPod config) (fun _ => True) Q.
Proof. unfold findExistingDebugPod, findArgs. produces_auto HQ. Qed.

Lemma waitLoop_lookup config debugPodName n :
  (forall d, Q (Slept d)) ->
  produces (waitLoop config debugPodName n) (fun _ => True) Q.
Proof.
  intros HS. induction n as [|n IH]; simpl.
  - produces_auto HQ.
  - unfold phaseArgs.
    eapply produces_bind; [produces_auto HQ|]. intros r _.
    destruct (cmdErr r); [|destruct (String.eqb _ _)]; produces_auto HQ;
      first [apply HS | exact IH].
Qed.

End Lookups.

Ltac produces_known ::=
  match goal with
  | |- produces (generateUniqueName _) _ _ => apply generateUniqueName_quiet
  | |- produces (getTargetPodSecurityContext _) _ _ => apply getTargetPodSecurityContext_lookup
  | |- produces (getTargetPodLabels _) _ _ => apply getTargetPodLabels_lookup
  | |- produces (getDeploymentSelectors _) _ _ => apply getDeploymentSelectors_lookup
  | |- produces (getTargetContainerName _) _ _ => apply getTargetContainerName_lookup
  | |- produces (verifyTargetPod _) _ _ => apply verifyTargetPod_lookup
  | |- produces (findExistingDebugPod _) _ _ => apply findExistingDebugPod_lookup
  end; auto.

(** ** Computations that always return *)

Section Returns.

Context {Env : Outside}.

Lemma bind_val {A B} (m : M A) (k : A -> M B) s a s' :
  m s = (Val a, s') -> bind m k s = k a s'.
Proof. intros E. unfold bind. rewrite E. reflexivity. Qed.

Lemma returns_ret {A} (a : A) : returns (ret a).
Proof. intros s. exists a, s. reflexivity. Qed.

Lemma returns_bind {A B} (m : M A) (k : A -> M B) :
  returns m -> (forall a, returns (k a)) -> returns (bind m k).
Proof.
  intros Hm Hk s. destruct (Hm s) as (a & s1 & E).
  rewrite (bind_val _ _ _ _ _ E). apply Hk.
Qed.

Lemma returns_emit (e : Event) : returns (emit e).
Proof. intros s. eexists _, _. reflexivity. Qed.

Lemma returns_call {A} (e : A -> Event) (f : World -> A * World) : returns (call e f).
Proof. intros s. unfold call. destruct (f (world s)). eexists _, _. reflexivity. Qed.

Lemma returns_readWorld {A} (f : World -> A) : returns (readWorld f).
Proof. intros s. eexists _, _. reflexivity. Qed.

Lemma returns_stepWorld {A} (f : World -> A * World) : returns (stepWorld f).
Proof. intros s. unfold stepWorld. destruct (f (world s)). eexists _, _. reflexivity. Qed.

End Returns.

Ltac returns_auto :=
  repeat first
    [ apply returns_ret
    | apply returns_emit
    | apply returns_call
    | apply returns_readWorld
    | apply returns_stepWorld
    | apply returns_bind; [| intros ]
    | match goal with
      | |- returns (match ?x with _ => _ end) => destruct x
      | |- returns (let '(_, _) := ?x in _) => destruct x
      | |- returns (if ?b then _ else _) => destruct b
      end
    | progress cbv beta zeta
    | progress unfold runCommand, log_Printf, fmt_Printf, time_Sleep, fileOp,
                      setupSignalHandler ].

Section Builder.

Context {Env : Outside}.

Lemma generateUniqueName_returns config : returns (generateUniqueName config).
Proof. unfold generateUniqueName. returns_auto. Qed.

Lemma inheritFromTarget_returns config labels :
  returns (inheritFromTarget config labels).
Proof.
  unfold inheritFromTarget, getTargetPodSecurityContext, getTargetPodLabels,
    getDeploymentSelectors.
  returns_auto.
Qed.

Lemma inheritFromTarget_lookup config labels Q :
  (forall e, lookupOnly e -> Q e) ->
  produces (inheritFromTarget config labels) (fun _ => True) Q.
Proof. intros HQ. unfold inheritFromTarget. produces_auto HQ. Qed.

(** The trace only grows. *)
Lemma trace_grows {A} (m : M A) Post Q s :
  produces m Post Q -> exists evs, trace (snd (m s)) = (trace s ++ evs)%list.
Proof. intros H. destruct (H s) as (evs & Ht & _). eauto. Qed.

(** The events of the builder: lookups, then one [kubectl apply] of a
    manifest whose spec has the two fixed fields. *)
Lemma createDebugPod_events config (Q : Event -> Prop) :
  (forall e, lookupOnly e -> Q e) ->
  (forall pod r,
      AutomountServiceAccountToken (Spec pod) = Some false ->
      TerminationGracePeriodSeconds (Spec pod) = Some 0 ->
      Q (Ran "kubectl" ["apply"; "-f"; "-"] (Some pod) r)) ->
  produces (createDebugPod config) (fun _ => True) Q.
Proof.
  intros HQ HA.
  unfold createDebugPod.
  eapply produces_bind; [apply generateUniqueName_quiet; exact HQ|]. intros debugPodName _.
  eapply (produces_bind _ _ (fun _ => True)); [produces_auto HQ|]. intros _ _.
  eapply (produces_bind _ _ (fun _ => True)).
  { destruct (negb _); [apply inheritFromTarget_lookup; exact HQ | produces_auto HQ]. }
  intros [[labels podSecurity] share] _.
  eapply (produces_bind _ _ (fun _ => True)); [produces_auto HQ|]. intros sec _.
  produces_auto HQ.
Qed.

Lemma createDebugPod_specInvariants config :
  produces (createDebugPod config) (fun _ => True) specInvariants.
Proof.
  apply createDebugPod_events.
  - intros [n args [p|] r| | | | | | |]; simpl; try contradiction;
      intros _ pod H; discriminate.
  - intros pod r H1 H2 pod' E. injection E as <-. auto.
Qed.

Lemma createDebugPod_deletes_nothing config :
  produces (createDebugPod config) (fun _ => True) (fun e => deletes e = false).
Proof.
  apply createDebugPod_events.
  - intros [n [|a args] [p|] r| | | | | | |]; simpl; try contradiction; auto.
    intros ->. reflexivity.
  - reflexivity.
Qed.

End Builder.

Section Stepping.

Context {Env : Outside}.

Lemma bind_ret {A B} (a : A) (k : A -> M B) s : bind (ret a) k s = k a s.
Proof. reflexivity. Qed.

Lemma bind_emit {B} (e : Event) (k : unit -> M B) s :
  bind (emit e) k s = k tt {| world := world s; trace := (trace s ++ [e])%list |}.
Proof. reflexivity. Qed.

Lemma bind_call {A B} (e : A -> Event) (f : World -> A * World) (k : A -> M B) s a w :
  f (world s) = (a, w) ->
  bind (call e f) k s = k a {| world := w; trace := (trace s ++ [e a])%list |}.
Proof. intros E. unfold bind, call. rewrite E. reflexivity. Qed.

Lemma bind_readWorld {A B} (f : World -> A) (k : A -> M B) s :
  bind (readWorld f) k s = k (f (world s)) s.
Proof. reflexivity. Qed.

Lemma bind_stepWorld {A B} (f : World -> A * World) (k : A -> M B) s a w :
  f (world s) = (a, w) ->
  bind (stepWorld f) k s = k a {| world := w; trace := trace s |}.
Proof. intros E. unfold bind, stepWorld. rewrite E. reflexivity. Qed.

Lemma call_eq {A} (e : A -> Event) (f : World -> A * World) s a w :
  f (world s) = (a, w) ->
  call e f s = (Val a, {| world := w; trace := (trace s ++ [e a])%list |}).
Proof. intros E. unfold call. rewrite E. reflexivity. Qed.

(** A sequence that returns: so did its first step. *)
Lemma bind_split {A B} (m : M A) (k : A -> M B) s b s' :
  bind m k s = (Val b, s') ->
  exists a s1, m s = (Val a, s1) /\ k a s1 = (Val b, s').
Proof.
  unfold bind. destruct (m s) as [[a | c | msg] s1]; intros E; try discriminate E.
  eauto.
Qed.

(** Where a computation that returns leaves the trace. *)
Lemma grows_to {A} (m : M A) Post Q s a s' :
  produces m Post Q -> m s = (Val a, s') ->
  exists evs, trace s' = (trace s ++ evs)%list /\ Forall Q evs.
Proof.
  intros H E. destruct (H s) as (evs & Ht & Hq & _). rewrite E in Ht. eauto.
Qed.

(** [kubectl apply] of a manifest is reached whenever the three quantities
    parse: nothing before it can stop the builder. *)
Lemma createDebugPod_applies config s :
  validQuantity (MemoryLimit config) = true ->
  validQuantity (CPURequest config) = true ->
  validQuantity (MemoryRequest config) = true ->
  exists pod answer,
    In (Ran "kubectl" ["apply"; "-f"; "-"] (Some pod) answer)
       (trace (snd (createDebugPod config s))).
Proof.
  intros V1 V2 V3. unfold createDebugPod.
  destruct (generateUniqueName_returns config s) as (name & s1 & E1).
  rewrite (bind_val _ _ _ _ _ E1). unfold log_Printf. rewrite bind_emit.
  match goal with
  | |- context [bind (if ?b then ?x else ?y) _ ?st] =>
      assert (R : returns (if b then x else y))
        by (destruct b; [apply inheritFromTarget_returns | apply returns_ret]);
      destruct (R st) as ([[labels podSecurity] share] & s2 & E2)
  end.
  rewrite (bind_val _ _ _ _ _ E2).
  match goal with
  | |- context [bind (match podSecurity with Some c => ?x c | None => ?y end) _ ?st] =>
      assert (R' : returns (match podSecurity with Some c => x c | None => y end))
        by (destruct podSecurity; returns_auto);
      destruct (R' st) as (sec & s3 & E3)
  end.
  rewrite (bind_val _ _ _ _ _ E3).
  unfold MustParse. rewrite V1, V2, V3. rewrite !bind_ret, bind_emit.
  unfold runCommand.
  match goal with
  | |- context [bind (call ?e (ExecCommand ?n ?a ?i)) _ ?st] =>
      destruct (ExecCommand n a i (world st)) as [r w'] eqn:E4;
      rewrite (bind_call e _ _ st r w' E4)
  end.
  eexists _, r.
  destruct (cmdErr r); simpl.
  - apply in_or_app. right. left. reflexivity.
  - apply in_or_app. left. apply in_or_app. right. left. reflexivity.
Qed.

End Stepping.

(** C10. Every pod manifest the standalone builder pipes to kubectl has
    service-account token automounting disabled and a termination grace
    period of zero seconds, whatever the profile, image and interactivity
    flags are (and whatever the cluster answers); and the builder does pipe
    a manifest whenever the three resource quantities parse. *)
Theorem standalone_pod_spec_invariants {Env : Outside} (config : DebugConfig) (w : World) :
  (forall name args pod answer,
      In (Ran name args (Some pod) answer) (trace (snd (createDebugPod config (start w)))) ->
      AutomountServiceAccountToken (Spec pod) = Some false
      /\ TerminationGracePeriodSeconds (Spec pod) = Some 0)
  /\ (validQuantity (MemoryLimit config) = true ->
      validQuantity (CPURequest config) = true ->
      validQuantity (MemoryRequest config) = true ->
      exists pod answer,
        In (Ran "kubectl" ["apply"; "-f"; "-"] (Some pod) answer)
           (trace (snd (createDebugPod config (start w))))).
Proof.
  split.
  - intros name args pod answer HIn.
    pose proof (produces_run _ _ _ w (createDebugPod_specInvariants config)) as HF.
    exact (proj1 (List.Forall_forall _ _) HF _ HIn pod eq_refl).
  - apply createDebugPod_applies.
Qed.

Lemma standalone_pod_spec_invariants_witness :
  exists pod answer,
    In (Ran "kubectl" ["apply"; "-f"; "-"] (Some pod) answer)
       (trace (snd (@createDebugPod scripted (soloConfig false) (@start scripted goneCluster))))
    /\ AutomountServiceAccountToken (Spec pod) = Some false
    /\ TerminationGracePeriodSeconds (Spec pod) = Some 0.
Proof.
  destruct (@standalone_pod_spec_invariants scripted (soloConfig false) goneCluster)
    as [Hall Hex].
  destruct (Hex eq_refl eq_refl eq_refl) as (pod & answer & HIn).
  exists pod, answer. split; [exact HIn | exact (Hall _ _ _ _ HIn)].
Defined.

(** ** Labels *)

Section Labels.

Context {Env : Outside}.

Lemma lookupOnly_noManifest e : lookupOnly e -> manifestOf e = None.
Proof. destruct e as [n args [p|] r| | | | | | |]; simpl; auto; contradiction. Qed.

Lemma noManifest_typeLabelled e : manifestOf e = None -> typeLabelled e.
Proof. intros H pod E. congruence. Qed.

Lemma noManifest_targetLabelled config e : manifestOf e = None -> targetLabelled config e.
Proof. intros H pod E. congruence. Qed.

(** The discovery label is set last, whatever was inherited. *)
Lemma createDebugPod_typeLabelled config :
  produces (createDebugPod config) (fun _ => True) typeLabelled.
Proof.
  assert (HQ : forall e, lookupOnly e -> typeLabelled e)
    by (intros e H; apply noManifest_typeLabelled, lookupOnly_noManifest, H).
  unfold createDebugPod.
  eapply produces_bind; [apply generateUniqueName_quiet; exact HQ|]. intros debugPodName _.
  eapply (produces_bind _ _ (fun _ => True)); [produces_auto HQ|]. intros _ _.
  eapply (produces_bind _ _ (fun _ => True)).
  { destruct (negb _); [apply inheritFromTarget_lookup; exact HQ | produces_auto HQ]. }
  intros [[labels podSecurity] share] _.
  eapply (produces_bind _ _ (fun _ => True)); [produces_auto HQ|]. intros sec _.
  produces_auto HQ.
  split; [|exact I]. intros pod E. simpl in E. injection E as <-. simpl.
  apply lookup_insert_eq.
Qed.

Lemma sparesTarget_selector name args stdin r sel :
  isSelectorQuery args = true ->
  cmdErr r = None ->
  UnmarshalLabels (cmdStdout r) = inl sel ->
  sparesTarget (Ran name args stdin r) = true ->
  sel !! "debug-tool/target" = None.
Proof.
  unfold sparesTarget, selectorRead. intros -> -> ->.
  apply bool_decide_eq_true.
Qed.

(** The selector [getDeploymentSelectors] returns is the one its third
    command read. *)
Lemma getDeploymentSelectors_spared config s ds s' :
  getDeploymentSelectors config s = (Val ds, s') ->
  exists evs,
    trace s' = (trace s ++ evs)%list
    /\ forall sel, ds = (Some sel, None) ->
                   Forall (fun e => sparesTarget e = true) evs ->
                   sel !! "debug-tool/target" = None.
Proof.
  unfold getDeploymentSelectors, runCommand.
  repeat first
    [ match goal with
      | |- bind (call ?e (ExecCommand ?n ?a ?i)) ?k ?st = _ -> _ =>
          let r := fresh "r" in
          let w := fresh "w" in
          let E := fresh "E" in
          destruct (ExecCommand n a i (world st)) as [r w] eqn:E;
          rewrite (bind_call e _ k st r w E)
      | |- (match cmdErr ?r with _ => _ end) _ = _ -> _ =>
          let H := fresh "Herr" in destruct (cmdErr r) eqn:H
      | |- (if ?b then _ else _) _ = _ -> _ => destruct b
      | |- (match UnmarshalLabels ?d with _ => _ end) _ = _ -> _ =>
          let H := fresh "Hdec" in destruct (UnmarshalLabels d) eqn:H
      end
    | progress cbv beta zeta ];
    intros Hrun; injection Hrun as <- <-; cbn [trace];
    (eexists; split; [rewrite <- ?app_assoc; reflexivity|]);
    intros sel Hds HF; try discriminate Hds.
  injection Hds as <-.
  apply Forall_app in HF. destruct HF as [_ HF].
  apply Forall_app in HF. destruct HF as [_ HF].
  inversion HF as [|e l He _]; subst.
  eapply sparesTarget_selector; [| eassumption | eassumption | exact He].
  reflexivity.
Qed.

(** With a target, the labels that come out of the inheritance carry the
    target-reference label, provided the selector read on the way does not
    list its key. *)
Lemma inheritFromTarget_target config labels s l ps sh s' :
  inheritFromTarget config labels s = (Val (l, ps, sh), s') ->
  exists evs,
    trace s' = (trace s ++ evs)%list
    /\ (Forall (fun e => sparesTarget e = true) evs ->
        l !! "debug-tool/target" = Some (PodName config)).
Proof.
  assert (HQ : forall e, lookupOnly e -> True) by auto.
  unfold inheritFromTarget. intros E.
  apply bind_split in E. destruct E as (sc & s1 & E1 & E).
  apply bind_split in E. destruct E as (podSecurity & s2 & E2 & E).
  apply bind_split in E. destruct E as (tl & s3 & E3 & E).
  apply bind_split in E. destruct E as (ds & s4 & E4 & E).
  injection E as <- _ _ <-.
  destruct (grows_to _ (fun _ => True) (fun _ => True) _ _ _
              (getTargetPodSecurityContext_lookup _ HQ config) E1) as (evs1 & Ht1 & _).
  assert (H2 : exists evs2, trace s2 = (trace s1 ++ evs2)%list).
  { eapply (grows_to _ (fun _ => True) (fun _ => True)) in E2.
    - destruct E2 as (evs2 & Ht2 & _). eauto.
    - produces_auto HQ. }
  destruct H2 as (evs2 & Ht2).
  destruct (grows_to _ (fun _ => True) (fun _ => True) _ _ _
              (getTargetPodLabels_lookup _ HQ config) E3) as (evs3 & Ht3 & _).
  destruct (getDeploymentSelectors_spared _ _ _ _ E4) as (evs4 & Ht4 & Hsel).
  exists (evs1 ++ evs2 ++ evs3 ++ evs4)%list. split.
  - rewrite Ht4, Ht3, Ht2, Ht1, <- !app_assoc. reflexivity.
  - intros HF.
    apply Forall_app in HF. destruct HF as [_ HF].
    apply Forall_app in HF. destruct HF as [_ HF].
    apply Forall_app in HF. destruct HF as [_ HF].
    destruct ds as [[sel|] [err|]]; try apply lookup_insert_eq.
    apply lookup_difference_Some. split; [apply lookup_insert_eq|].
    apply (Hsel sel eq_refl HF).
Qed.

(** With a target, the manifest the builder pipes carries the
    target-reference label, provided the selector read among the events
    the builder added does not list its key. *)
Lemma createDebugPod_targetLabelled config s :
  PodName config <> "" ->
  exists evs,
    trace (snd (createDebugPod config s)) = (trace s ++ evs)%list
    /\ (Forall (fun e => sparesTarget e = true) evs -> Forall (targetLabelled config) evs).
Proof.
  intros Hne.
  assert (HQ : forall e, lookupOnly e -> targetLabelled config e)
    by (intros e H; apply noManifest_targetLabelled, lookupOnly_noManifest, H).
  unfold createDebugPod.
  destruct (generateUniqueName_returns config s) as (name & s1 & E1).
  destruct (grows_to _ _ _ _ _ _ (generateUniqueName_quiet (targetLabelled config) config) E1)
    as (evs1 & Ht1 & Hq1).
  rewrite (bind_val _ _ _ _ _ E1). unfold log_Printf. rewrite bind_emit.
  destruct (String.eqb_spec (PodName config) "") as [|_]; [contradiction|].
  cbn [negb].
  match goal with
  | |- context [bind (inheritFromTarget config ?l) _ ?st] =>
      destruct (inheritFromTarget_returns config l st) as ([[labels podSecurity] share] & s2 & E2);
      destruct (grows_to _ _ _ _ _ _ (inheritFromTarget_lookup config l _ HQ) E2)
        as (evs2 & Ht2 & Hq2);
      destruct (inheritFromTarget_target _ _ _ _ _ _ _ E2) as (evs2' & Ht2' & Hl)
  end.
  rewrite Ht2 in Ht2'. apply app_inv_head in Ht2'. subst evs2'.
  rewrite (bind_val _ _ _ _ _ E2). cbv beta iota.
  match goal with
  | |- context [bind (match podSecurity with Some c => ?x c | None => ?y end) _ ?st] =>
      assert (R' : returns (match podSecurity with Some c => x c | None => y end))
        by (destruct podSecurity; returns_auto);
      destruct (R' st) as (sec & s3 & E3);
      assert (P' : produces (match podSecurity with Some c => x c | None => y end)
                            (fun _ => True) (targetLabelled config))
        by (destruct podSecurity; produces_auto HQ);
      destruct (grows_to _ _ _ _ _ _ P' E3) as (evs3 & Ht3 & Hq3)
  end.
  rewrite (bind_val _ _ _ _ _ E3).
  cbn [trace] in Ht2.
  assert (Hpre : trace s3 = (trace s ++ evs1 ++ [Logged ("Generating debug pod name: " +:+ name)]
                                     ++ evs2 ++ evs3)%list).
  { rewrite Ht3, Ht2, Ht1, <- !app_assoc. reflexivity. }
  assert (Hq : Forall (fun e => sparesTarget e = true) (evs1 ++ [Logged ("Generating debug pod name: " +:+ name)] ++ evs2 ++ evs3) ->
               Forall (targetLabelled config)
                      (evs1 ++ [Logged ("Generating debug pod name: " +:+ name)] ++ evs2 ++ evs3)
               /\ labels !! "debug-tool/target" = Some (PodName config)).
  { intros HF. split.
    - repeat (apply Forall_app; split); auto.
      repeat constructor. apply HQ. exact I.
    - apply Hl.
      apply Forall_app in HF. destruct HF as [_ HF].
      apply Forall_app in HF. destruct HF as [_ HF].
      apply Forall_app in HF. destruct HF as [HF _]. exact HF. }
  unfold MustParse.
  destruct (validQuantity (MemoryLimit config));
    [|eexists; split; [exact Hpre | intros HF; apply Hq, HF]].
  rewrite bind_ret.
  destruct (validQuantity (CPURequest config));
    [|eexists; split; [exact Hpre | intros HF; apply Hq, HF]].
  rewrite bind_ret.
  destruct (validQuantity (MemoryRequest config));
    [|eexists; split; [exact Hpre | intros HF; apply Hq, HF]].
  rewrite bind_ret, bind_emit. unfold runCommand.
  match goal with
  | |- context [bind (call ?e (ExecCommand ?n ?a (Some ?pod))) _ ?st] =>
      set (debugPod := pod);
      destruct (ExecCommand n a (Some debugPod) (world st)) as [r w'] eqn:E4;
      rewrite (bind_call e _ _ st r w' E4)
  end.
  cbn [trace].
  assert (Hfin : forall more,
             Forall (targetLabelled config) more ->
             exists evs,
               (((trace s3 ++ [Logged "Applying debug pod YAML..."]) ++
                 [Ran "kubectl" ["apply"; "-f"; "-"]
                      (Some debugPod) r]) ++ more)%list = (trace s ++ evs)%list
               /\ (Forall (fun e => sparesTarget e = true) evs ->
                   Forall (targetLabelled config) evs)).
  { intros more Hmore. eexists. split.
    - rewrite Hpre, <- !app_assoc. reflexivity.
    - intros HF. rewrite !app_assoc in HF.
      apply Forall_app in HF. destruct HF as [HF _].
      apply Forall_app in HF. destruct HF as [HF _].
      apply Forall_app in HF. destruct HF as [HF _].
      rewrite <- !app_assoc in HF.
      destruct (Hq HF) as [Hpref Hlab].
      repeat (apply Forall_app; split); try assumption.
      + repeat constructor. apply HQ. exact I.
      + repeat constructor. apply HQ. exact I.
      + repeat constructor. intros pod E. simpl in E. injection E as <-.
        unfold debugPod. simpl.
        rewrite lookup_insert_ne by discriminate. exact Hlab. }
  destruct (cmdErr r); simpl.
  - rewrite <- (app_nil_r (_ ++ [Ran _ _ _ _])). apply Hfin. constructor.
  - apply Hfin. repeat constructor. apply HQ. exact I.
Qed.

(** What a continuation adds comes after what was done before it. *)
Lemma bind_adds {A B} (m : M A) (k : A -> M B) Q s :
  (forall a, produces (k a) (fun _ => True) Q) ->
  exists more,
    trace (snd (bind m k s)) = (trace (snd (m s)) ++ more)%list /\ Forall Q more.
Proof.
  intros Hk. unfold bind. destruct (m s) as [[a | c | msg] s1]; simpl.
  - destruct (Hk a s1) as (evs & Ht & Hq & _). eauto.
  - exists []. rewrite app_nil_r. auto.
  - exists []. rewrite app_nil_r. auto.
Qed.

End Labels.

(** ** Only the builder pipes a manifest *)

Section NoManifest.

Context {Env : Outside}.
Variable Q : Event -> Prop.
Hypothesis HQ : forall e, manifestOf e = None -> Q e.

Lemma noManifest_lookups : forall e, lookupOnly e -> Q e.
Proof. intros e H. apply HQ, lookupOnly_noManifest, H. Qed.

Local Hint Resolve noManifest_lookups : core.

Lemma waitForPod_noManifest config debugPodName :
  produces (waitForPod config debugPodName) (fun _ => True) Q.
Proof.
  apply waitLoop_lookup; [apply noManifest_lookups | intros d; apply HQ; reflexivity].
Qed.

Lemma attachToPod_noManifest config debugPodName :
  produces (attachToPod config debugPodName) (fun _ => True) Q.
Proof. unfold attachToPod. produces_auto HQ. Qed.

Lemma deletePod_noManifest config debugPodName :
  produces (deletePod config debugPodName) (fun _ => True) Q.
Proof. unfold deletePod. produces_auto HQ. Qed.

Lemma cleanupDebugPod_noManifest config debugPodName :
  produces (cleanupDebugPod config debugPodName) (fun _ => True) Q.
Proof. unfold cleanupDebugPod. produces_auto HQ. Qed.

Lemma askForNewPod_noManifest config existingPod :
  produces (askForNewPod config existingPod) (fun _ => True) Q.
Proof. unfold askForNewPod. produces_auto HQ. Qed.

Local Ltac known :=
  match goal with
  | |- produces (waitForPod _ _) _ _ => apply waitForPod_noManifest
  | |- produces (attachToPod _ _) _ _ => apply attachToPod_noManifest
  | |- produces (deletePod _ _) _ _ => apply deletePod_noManifest
  | |- produces (cleanupDebugPod _ _) _ _ => apply cleanupDebugPod_noManifest
  | |- produces (askForNewPod _ _) _ _ => apply askForNewPod_noManifest
  | |- produces (generateUniqueName _) _ _ => apply generateUniqueName_quiet
  | |- produces (getTargetPodSecurityContext _) _ _ => apply getTargetPodSecurityContext_lookup
  | |- produces (getTargetContainerName _) _ _ => apply getTargetContainerName_lookup
  | |- produces (verifyTargetPod _) _ _ => apply verifyTargetPod_lookup
  | |- produces (findExistingDebugPod _) _ _ => apply findExistingDebugPod_lookup
  end; auto.
Ltac produces_known ::= known.

Lemma useExistingPod_noManifest config existingPod :
  produces (useExistingPod config existingPod) (fun _ => True) Q.
Proof. unfold useExistingPod. produces_auto HQ. Qed.

Lemma createPodCopy_noManifest config :
  produces (createPodCopy config) (fun _ => True) Q.
Proof. unfold createPodCopy. produces_auto HQ. Qed.

Local Ltac known2 :=
  first [ known
        | match goal with
          | |- produces (useExistingPod _ _) _ _ => apply useExistingPod_noManifest
          | |- produces (createPodCopy _) _ _ => apply createPodCopy_noManifest
          end ].
Ltac produces_known ::= known2.

Lemma executeCopyPod_noManifest config :
  produces (executeCopyPod config) (fun _ => True) Q.
Proof. unfold executeCopyPod. produces_auto HQ. Qed.

Lemma executeAddContainer_noManifest config :
  produces (executeAddContainer config) (fun _ => True) Q.
Proof. unfold executeAddContainer. produces_auto HQ. Qed.

Lemma standaloneSession_noManifest config debugPodName :
  produces (standaloneSession config debugPodName) (fun _ => True) Q.
Proof.
  unfold standaloneSession.
  eapply (produces_bind _ _ (fun _ => True)).
  { destruct (RemoveAfter config); [apply produces_emit; auto | apply produces_ret; auto]. }
  intros _ _.
  eapply (produces_bind _ _ (fun _ => True)).
  { destruct (Interactive config && TTY config).
    - eapply (produces_bind _ _ (fun _ => True)); [apply produces_emit; auto|].
      intros _ _. apply waitForPod_noManifest.
    - apply produces_ret; exact I. }
  intros [e|] _; [apply produces_ret; exact I|].
  eapply (produces_bind _ _ (fun _ => True)).
  { destruct (Interactive config && TTY config).
    - eapply (produces_bind _ _ (fun _ => True)).
      + apply produces_call. intros a. split; [apply HQ; reflexivity | exact I].
      + intros r _. destruct (cmdErr r) as [[c t|t|]|];
          first [apply produces_exit | apply produces_ret; exact I].
    - eapply (produces_bind _ _ (fun _ => True)); [apply produces_emit; auto|].
      intros _ _. apply produces_ret; exact I. }
  intros result _.
  eapply (produces_bind _ _ (fun _ => True)).
  { destruct (RemoveAfter config); [apply cleanupDebugPod_noManifest | apply produces_ret; auto]. }
  intros _ _. apply produces_ret; exact I.
Qed.

(** [executeStandalone] adds no manifest to those of the builder. *)
Lemma executeStandalone_after_builder config :
  produces (createDebugPod config) (fun _ => True) Q ->
  produces (executeStandalone config) (fun _ => True) Q.
Proof.
  intros HB. unfold executeStandalone.
  eapply produces_bind; [exact HB|]. intros [debugPodName [err|]] _.
  - apply produces_ret; exact I.
  - apply standaloneSession_noManifest.
Qed.

Lemma Execute_after_builder config :
  produces (createDebugPod config) (fun _ => True) Q ->
  produces (Execute config) (fun _ => True) Q.
Proof.
  intros HB. unfold Execute. destruct (Operation config).
  - apply executeStandalone_after_builder, HB.
  - apply executeCopyPod_noManifest.
  - apply executeAddContainer_noManifest.
  - apply produces_ret. exact I.
Qed.

End NoManifest.

(** C2, as amended. Every pod manifest the program builds and pipes to
    kubectl (the builder [createDebugPod], whatever operation runs and
    whatever the cluster answers) carries the discovery label
    [debug-tool/type=debug-pod].  When a target is set it also carries
    [debug-tool/target=<target name>], provided the selector of the owning
    deployment, as the run read it, does not list that key.  The
    ephemeral-container operation pipes no manifest and gives no label. *)
Theorem applied_manifest_carries_labels {Env : Outside} (config : DebugConfig) (w : World) :
  (forall name args pod answer,
      In (Ran name args (Some pod) answer) (trace (snd (Execute config (start w)))) ->
      Labels pod !! "debug-tool/type" = Some "debug-pod")
  /\ (PodName config <> "" ->
      Forall (fun e => sparesTarget e = true) (trace (snd (Execute config (start w)))) ->
      forall name args pod answer,
        In (Ran name args (Some pod) answer) (trace (snd (Execute config (start w)))) ->
        Labels pod !! "debug-tool/target" = Some (PodName config))
  /\ (Operation config = OperationAddContainer ->
      forall e, In e (trace (snd (Execute config (start w)))) -> labelsGiven e = ∅).
Proof.
  split; [|split].
  - intros name args pod answer HIn.
    assert (HP : produces (Execute config) (fun _ => True) typeLabelled).
    { apply Execute_after_builder.
      - apply noManifest_typeLabelled.
      - apply createDebugPod_typeLabelled. }
    pose proof (produces_run _ _ _ w HP) as HF.
    exact (proj1 (List.Forall_forall _ _) HF _ HIn pod eq_refl).
  - intros Hne Hspare name args pod answer HIn.
    assert (HF : Forall (targetLabelled config) (trace (snd (Execute config (start w))))).
    { revert Hspare. clear HIn. unfold Execute.
      destruct (Operation config); intros Hspare.
      - unfold executeStandalone in *.
        match goal with
        | |- context [bind (createDebugPod config) ?k _] =>
            destruct (bind_adds (createDebugPod config) k (targetLabelled config) (start w))
              as (more & Ht & Hmore)
        end.
        { intros [n [err|]]; [apply produces_ret; exact I|].
          apply standaloneSession_noManifest. apply noManifest_targetLabelled. }
        destruct (createDebugPod_targetLabelled config (start w) Hne) as (evs & Hc & Hl).
        rewrite Ht in *. apply Forall_app in Hspare. destruct Hspare as [Hspare _].
        apply Forall_app. split; [|exact Hmore].
        rewrite Hc in *. simpl in *. apply Hl, Hspare.
      - apply (produces_run _ (fun _ => True)), executeCopyPod_noManifest.
        apply noManifest_targetLabelled.
      - apply (produces_run _ (fun _ => True)), executeAddContainer_noManifest.
        apply noManifest_targetLabelled.
      - constructor. }
    exact (proj1 (List.Forall_forall _ _) HF _ HIn pod eq_refl).
  - intros Hop e HIn. unfold Execute in HIn. rewrite Hop in HIn.
    assert (HP : produces (executeAddContainer config) (fun _ => True)
                          (fun e => manifestOf e = None))
      by (apply executeAddContainer_noManifest; auto).
    pose proof (produces_run _ _ _ w HP) as HF.
    pose proof (proj1 (List.Forall_forall _ _) HF _ HIn) as Hn.
    destruct e as [n a [p|] r| | | | | | |]; simpl in *; congruence.
Qed.

Lemma applied_manifest_carries_labels_witness :
  In (Ran "kubectl"
          ["get"; "deployment"; "web-deploy"; "-n"; "default"; "-o";
           "jsonpath={.spec.selector.matchLabels}"] None (succeeded "{app:x}"))
     (trace (snd (@Execute scripted (detached (webConfig OperationStandalone false))
                           (@start scripted (webCluster [])))))
  /\ exists pod answer,
       In (Ran "kubectl" ["apply"; "-f"; "-"] (Some pod) answer)
          (trace (snd (@Execute scripted (detached (webConfig OperationStandalone false))
                                (@start scripted (webCluster [])))))
       /\ Labels pod !! "debug-tool/type" = Some "debug-pod"
       /\ Labels pod !! "debug-tool/target" = Some "web".
Proof.
  split.
  { vm_compute. repeat (first [left; reflexivity | right]). }
  destruct (@applied_manifest_carries_labels scripted
              (detached (webConfig OperationStandalone false)) (webCluster []))
    as (Htype & Htarget & _).
  assert (H : exists pod answer,
             In (Ran "kubectl" ["apply"; "-f"; "-"] (Some pod) answer)
                (trace (snd (@Execute scripted (detached (webConfig OperationStandalone false))
                                      (@start scripted (webCluster [])))))).
  { eexists _, _. vm_compute. repeat (first [left; reflexivity | right]). }
  destruct H as (pod & answer & HIn). exists pod, answer.
  split; [exact HIn|]. split; [exact (Htype _ _ _ _ HIn)|].
  apply (Htarget ltac:(discriminate)) with (name := "kubectl") (args := ["apply"; "-f"; "-"])
                                           (answer := answer); [|exact HIn].
  apply List.Forall_forall, List.forallb_forall. vm_compute. reflexivity.
Defined.

(** Why the proviso: against [claimingCluster], whose deployment selector
    lists [debug-tool/target], the standalone builder with the target [web]
    strips the target-reference label it has just set, and the manifest it
    pipes carries the discovery label alone. *)
Lemma selector_listing_target_strips_it :
  forallb (@sparesTarget scripted)
          (trace (snd (@Execute scripted (detached (webConfig OperationStandalone false))
                                (@start scripted claimingCluster))))
  = false
  /\ exists pod answer,
       In (Ran "kubectl" ["apply"; "-f"; "-"] (Some pod) answer)
          (trace (snd (@Execute scripted (detached (webConfig OperationStandalone false))
                                (@start scripted claimingCluster))))
       /\ map_to_list (Labels pod)
          = [("debug-tool/type", "debug-pod"); ("pod-template-hash", "abc")].
Proof.
  split; [vm_compute; reflexivity|].
  eexists _, _. split.
  - vm_compute. repeat (first [left; reflexivity | right]).
  - vm_compute. reflexivity.
Qed.

(** ** The readiness wait *)

Section Readiness.

Context {Env : Outside}.

Lemma waitLoop_neverReady config debugPodName n s :
  neverReady debugPodName (Namespace config) n (world s) ->
  exists s' evs,
    waitLoop config debugPodName n s
    = (Val (Some (errorString "pod did not become ready within 30 seconds")), s')
    /\ trace s' = (trace s ++ evs)%list
    /\ Forall (fun e => deletes e = false) evs.
Proof.
  revert s. induction n as [|n IH]; intros s Hn.
  - exists s, []. simpl. rewrite app_nil_r. auto.
  - simpl in Hn. simpl. unfold runCommand.
    destruct (ExecCommand "kubectl" (phaseArgs debugPodName (Namespace config)) None (world s))
      as [r w'] eqn:E.
    destruct Hn as [Hr Hn].
    rewrite (bind_call _ _ _ s r w' E).
    set (s1 := {| world := w';
                  trace := (trace s ++ [Ran "kubectl" (phaseArgs debugPodName (Namespace config))
                                            None r])%list |}).
    assert (Hsleep : forall k : unit -> M (option error),
               bind (time_Sleep sleepDuration) k s1
               = k tt {| world := w'; trace := (trace s1 ++ [Slept sleepDuration])%list |})
      by reflexivity.
    destruct (IH {| world := w'; trace := (trace s1 ++ [Slept sleepDuration])%list |} Hn)
      as (s' & evs & Ew & Et & Hf).
    assert (Hgoal : exists s'0 evs0,
               bind (time_Sleep sleepDuration) (fun _ => waitLoop config debugPodName n) s1
               = (Val (Some (errorString "pod did not become ready within 30 seconds")), s'0)
               /\ trace s'0 = (trace s ++ evs0)%list
               /\ Forall (fun e => deletes e = false) evs0).
    { rewrite Hsleep. exists s'.
      exists ([Ran "kubectl" (phaseArgs debugPodName (Namespace config)) None r;
               Slept sleepDuration] ++ evs)%list.
      split; [exact Ew|]. split.
      - rewrite Et. subst s1. simpl. rewrite <- !app_assoc. reflexivity.
      - apply Forall_app. split; [|exact Hf]. repeat constructor. }
    destruct (cmdErr r) as [err|]; [exact Hgoal|].
    destruct (String.eqb_spec (cmdStdout r) "Running") as [Hrun|_]; [|exact Hgoal].
    destruct Hr as [Hr|Hr]; congruence.
Qed.

(** When the builder reports success, the manifest was applied and kubectl
    accepted it. *)
Lemma createDebugPod_created config s debugPodName s1 :
  createDebugPod config s = (Val (debugPodName, None), s1) ->
  exists pod r,
    In (Ran "kubectl" ["apply"; "-f"; "-"] (Some pod) r) (trace s1)
    /\ cmdErr r = None /\ corev1.Name pod = debugPodName.
Proof.
  unfold createDebugPod.
  destruct (generateUniqueName_returns config s) as (name & s0 & E1).
  rewrite (bind_val _ _ _ _ _ E1). unfold log_Printf. rewrite bind_emit.
  match goal with
  | |- context [bind (if ?b then ?x else ?y) _ ?st] =>
      assert (R : returns (if b then x else y))
        by (destruct b; [apply inheritFromTarget_returns | apply returns_ret]);
      destruct (R st) as ([[labels podSecurity] share] & s2 & E2)
  end.
  rewrite (bind_val _ _ _ _ _ E2).
  match goal with
  | |- context [bind (match podSecurity with Some c => ?x c | None => ?y end) _ ?st] =>
      assert (R' : returns (match podSecurity with Some c => x c | None => y end))
        by (destruct podSecurity; returns_auto);
      destruct (R' st) as (sec & s3 & E3)
  end.
  rewrite (bind_val _ _ _ _ _ E3).
  unfold MustParse.
  destruct (validQuantity (MemoryLimit config)); [|discriminate].
  destruct (validQuantity (CPURequest config)); [|discriminate].
  destruct (validQuantity (MemoryRequest config)); [|discriminate].
  rewrite !bind_ret, bind_emit.
  unfold runCommand.
  match goal with
  | |- context [bind (call ?e (ExecCommand ?n ?a ?i)) _ ?st] =>
      destruct (ExecCommand n a i (world st)) as [r w'] eqn:E4;
      rewrite (bind_call e _ _ st r w' E4)
  end.
  destruct (cmdErr r) eqn:Er; simpl; [discriminate|].
  intros E. injection E as <- <-. simpl.
  eexists _, r. split.
  - apply in_or_app. left. apply in_or_app. right. left. reflexivity.
  - split; [exact Er | reflexivity].
Qed.

End Readiness.

(** C9. When the interactive readiness wait uses up its thirty attempts,
    [executeStandalone] fails with a timeout and has run no delete command:
    the session it created (the manifest kubectl accepted) stays in the
    cluster, whether or not removal after the session was requested. *)
Theorem readiness_timeout_keeps_session {Env : Outside}
        (config : DebugConfig) (w : World) (debugPodName : string) (s1 : State) :
  Interactive config && TTY config = true ->
  createDebugPod config (start w) = (Val (debugPodName, None), s1) ->
  neverReady debugPodName (Namespace config) (Z.to_nat maxAttempts) (world s1) ->
  exists err s2,
    executeStandalone config (start w) = (Val (Some err), s2)
    /\ errorTypeOf err = Some ErrorTypeTimeout
    /\ Forall (fun e => deletes e = false) (trace s2)
    /\ exists pod r,
         In (Ran "kubectl" ["apply"; "-f"; "-"] (Some pod) r) (trace s2)
         /\ cmdErr r = None /\ corev1.Name pod = debugPodName.
Proof.
  intros Hit Hc Hn.
  destruct (createDebugPod_created _ _ _ _ Hc) as (pod & r & HIn & Hr & Hname).
  pose proof (produces_run _ _ _ w (createDebugPod_deletes_nothing config)) as Hnd.
  rewrite Hc in Hnd. simpl in Hnd.
  unfold executeStandalone. rewrite (bind_val _ _ _ _ _ Hc).
  unfold standaloneSession. rewrite Hit.
  set (s1' := if RemoveAfter config
              then {| world := world s1;
                      trace := (trace s1 ++ [SignalHandlerInstalled debugPodName])%list |}
              else s1).
  assert (Hw : world s1' = world s1) by (subst s1'; destruct (RemoveAfter config); reflexivity).
  assert (Ht1 : exists evs, trace s1' = (trace s1 ++ evs)%list
                            /\ Forall (fun e => deletes e = false) evs).
  { subst s1'. destruct (RemoveAfter config).
    - exists [SignalHandlerInstalled debugPodName]. split; [reflexivity|]. repeat constructor.
    - exists []. rewrite app_nil_r. auto. }
  destruct Ht1 as (evs1 & Ht1 & Hf1).
  set (s2 := {| world := world s1';
                trace := (trace s1' ++ [Logged "Waiting for pod to be ready..."])%list |}).
  assert (Hn2 : neverReady debugPodName (Namespace config) (Z.to_nat maxAttempts) (world s2))
    by (subst s2; simpl; rewrite Hw; exact Hn).
  destruct (waitLoop_neverReady config debugPodName _ s2 Hn2) as (s3 & evs3 & Ew & Et & Hf3).
  exists (WithOriginalError (NewTimeoutError "pod ready" "30s")
            (errorString "pod did not become ready within 30 seconds")), s3.
  assert (Hrun : forall k : unit -> M (option error),
             bind (if RemoveAfter config then setupSignalHandler config debugPodName
                   else ret tt) k s1 = k tt s1').
  { intros k. subst s1'. destruct (RemoveAfter config); reflexivity. }
  rewrite Hrun. unfold log_Printf. unfold bind at 1. rewrite bind_emit.
  fold s2. unfold waitForPod. rewrite Ew.
  split; [reflexivity|]. split; [reflexivity|].
  assert (Et3 : trace s3 = (trace s1 ++ evs1 ++ [Logged "Waiting for pod to be ready..."]
                            ++ evs3)%list).
  { rewrite Et. subst s2. simpl. rewrite Ht1. rewrite <- !app_assoc. reflexivity. }
  split.
  - rewrite Et3. repeat (apply Forall_app; split); auto; repeat constructor.
  - exists pod, r. split; [|auto]. rewrite Et3. apply in_or_app. left. exact HIn.
Qed.

(** In the scripted cluster the answers do not change, so a pod that is
    pending once is pending at every poll. *)
Lemma scripted_neverReady debugPodName namespace n (w : Scripted) :
  cmdStdout (answerOf (answers w) (otherwise w) (phaseArgs debugPodName namespace))
  <> "Running" ->
  @neverReady scripted debugPodName namespace n w.
Proof.
  intros H. induction n as [|n IH]; simpl; auto.
Qed.

Lemma readiness_timeout_keeps_session_witness :
  exists err s2,
    @executeStandalone scripted (soloConfig true) (@start scripted goneCluster)
    = (Val (Some err), s2)
    /\ errorTypeOf err = Some ErrorTypeTimeout
    /\ Forall (fun e => deletes e = false) (trace s2)
    /\ exists pod r,
         In (Ran "kubectl" ["apply"; "-f"; "-"] (Some pod) r) (trace s2)
         /\ cmdErr r = None /\ corev1.Name pod = "debug-120000-0042".
Proof.
  assert (Hfst : fst (@createDebugPod scripted (soloConfig true) (@start scripted goneCluster))
                 = Val ("debug-120000-0042", None))
    by (vm_compute; reflexivity).
  assert (Hw : @world scripted (snd (@createDebugPod scripted (soloConfig true)
                                        (@start scripted goneCluster))) = goneCluster)
    by (vm_compute; reflexivity).
  destruct (@createDebugPod scripted (soloConfig true) (@start scripted goneCluster))
    as [c s1] eqn:Hc.
  simpl in Hfst, Hw. subst c.
  refine (@readiness_timeout_keeps_session scripted (soloConfig true) goneCluster
            "debug-120000-0042" s1 eq_refl Hc _).
  rewrite Hw. apply scripted_neverReady. vm_compute. discriminate.
Defined.

(** ** Reclamation filter *)

(** C7, as amended. With no threshold the filter returns the records
    unchanged; with a threshold that parses to a duration [T] other than the
    least one (-2^63 ns) it selects, in order, exactly the records created
    strictly before [now - T]; with a threshold that does not parse it
    selects nothing and fails with a plain error naming the flag, an error
    without a type, which [runClean] returns wrapped when the listing shows
    at least one session.  On an empty listing [runClean] prints that there
    is nothing to clean and succeeds: the filter is not run and the
    threshold is not read. *)
Theorem filterPodsForCleanup_selects_older {Env : Outside}
        (f : Flags) (pods : list DebugPodInfo) (s : State) :
  (cleanOlderThan f = "" ->
   filterPodsForCleanup f pods s = (Val (pods, None), s))
  /\ (forall T, cleanOlderThan f <> "" ->
        ParseDuration (cleanOlderThan f) = inl T -> T <> minDuration ->
        exists selected,
          filterPodsForCleanup f pods s = (Val (selected, None), s)
          /\ selected
             = List.filter (fun pod => Info.CreationTimestamp pod <? Now (world s) - T) pods
          /\ forall pod, In pod selected <->
                         In pod pods /\ Info.CreationTimestamp pod < Now (world s) - T)
  /\ (forall e, cleanOlderThan f <> "" ->
        ParseDuration (cleanOlderThan f) = inr e ->
        exists err,
          filterPodsForCleanup f pods s = (Val ([], Some err), s)
          /\ err = errorString ("invalid duration format for --older-than: " +:+ e)
          /\ errorTypeOf err = None
          /\ forall s0, pods <> [] ->
               getDebugPods f s0 = (Val (pods, None), s) ->
               runClean f s0
               = (Val (Some (errorString ("failed to filter pods: " +:+ Error err))), s))
  /\ (forall s0,
        getDebugPods f s0 = (Val ([], None), s) ->
        runClean f s0
        = (Val None,
           {| world := world s;
              trace := (trace s ++ [Printed ("No debug pods found to clean" +:+
                                             String newline "")])%list |})).
Proof.
  split; [|split; [|split]].
  - unfold filterPodsForCleanup. intros ->. reflexivity.
  - unfold filterPodsForCleanup. intros T Hne HT Hmin.
    destruct (String.eqb_spec (cleanOlderThan f) ""); [contradiction|].
    rewrite HT. eexists. split; [reflexivity|].
    unfold Add_, Before, negDuration.
    destruct (Z.eqb_spec T minDuration); [contradiction|].
    replace (Now (world s) + - T) with (Now (world s) - T) by lia.
    split; [reflexivity|].
    intros pod. rewrite List.filter_In, Z.ltb_lt. reflexivity.
  - intros e Hne He.
    assert (E : filterPodsForCleanup f pods s
                = (Val ([], Some (errorString
                                    ("invalid duration format for --older-than: " +:+ e))), s)).
    { unfold filterPodsForCleanup.
      destruct (String.eqb_spec (cleanOlderThan f) ""); [contradiction|].
      rewrite He. reflexivity. }
    eexists. split; [exact E|]. split; [reflexivity|]. split; [reflexivity|].
    intros s0 Hpods Hlist. unfold runClean.
    rewrite (bind_val _ _ _ _ _ Hlist). cbv beta iota.
    destruct pods as [|pod rest]; [contradiction|].
    rewrite (bind_val _ _ _ _ _ E). reflexivity.
  - intros s0 Hlist. unfold runClean.
    rewrite (bind_val _ _ _ _ _ Hlist). reflexivity.
Qed.

Lemma filterPodsForCleanup_selects_older_witness :
  fst (@filterPodsForCleanup scripted (olderThan "") threeRecords
         (@start scripted goneCluster))
  = Val (threeRecords, None)
  /\ (exists selected,
        fst (@filterPodsForCleanup scripted (olderThan "1h") threeRecords
               (@start scripted goneCluster))
        = Val (selected, None)
        /\ map Info.Name selected = ["debug-b"; "debug-c"])
  /\ (exists err,
        fst (@filterPodsForCleanup scripted (olderThan "soon") threeRecords
               (snd (@getDebugPods scripted (olderThan "soon") (@start scripted busyCluster))))
        = Val ([], Some err)
        /\ err = errorString
                   "invalid duration format for --older-than: time: invalid duration 'soon'"
        /\ errorTypeOf err = None
        /\ fst (@runClean scripted (olderThan "soon") (@start scripted busyCluster))
           = Val (Some (errorString ("failed to filter pods: " +:+ Error err))))
  /\ fst (@runClean scripted (olderThan "soon") (@start scripted emptyCluster)) = Val None.
Proof.
  split; [|split; [|split]].
  - destruct (@filterPodsForCleanup_selects_older scripted (olderThan "") threeRecords
                (@start scripted goneCluster)) as (H & _ & _ & _).
    rewrite (H eq_refl). reflexivity.
  - destruct (@filterPodsForCleanup_selects_older scripted (olderThan "1h") threeRecords
                (@start scripted goneCluster)) as (_ & H & _ & _).
    destruct (H hour) as (selected & E & Hsel & _).
    + discriminate.
    + reflexivity.
    + discriminate.
    + exists selected. rewrite E. split; [reflexivity|]. rewrite Hsel. vm_compute. reflexivity.
  - assert (Hfst : fst (@getDebugPods scripted (olderThan "soon") (@start scripted busyCluster))
                   = Val (threeRecords, None)) by (vm_compute; reflexivity).
    destruct (@getDebugPods scripted (olderThan "soon") (@start scripted busyCluster))
      as [c s1] eqn:Hlist.
    simpl in Hfst. subst c. cbn [snd].
    destruct (@filterPodsForCleanup_selects_older scripted (olderThan "soon") threeRecords s1)
      as (_ & _ & H & _).
    destruct (H "time: invalid duration 'soon'") as (err & E & Herr & Hty & Hrun).
    + discriminate.
    + reflexivity.
    + exists err. rewrite E. split; [reflexivity|]. split; [exact Herr|].
      split; [exact Hty|].
      rewrite (Hrun (@start scripted busyCluster)); [reflexivity | discriminate | exact Hlist].
  - assert (Hfst : fst (@getDebugPods scripted (olderThan "soon") (@start scripted emptyCluster))
                   = Val ([], None)) by (vm_compute; reflexivity).
    destruct (@getDebugPods scripted (olderThan "soon") (@start scripted emptyCluster))
      as [c s1] eqn:Hlist.
    simpl in Hfst. subst c.
    destruct (@filterPodsForCleanup_selects_older scripted (olderThan "soon") [] s1)
      as (_ & _ & _ & H).
    rewrite (H (@start scripted emptyCluster) Hlist). reflexivity.
Defined.

(** C7, counterexample. The threshold [-9223372036854775808ns] parses to
    the least duration, -2^63 ns, whose negation in [Add(-duration)] wraps
    to itself: the three records at noon, all created before [now - T],
    are selected by the claim's formula and none of them by the filter.  The
    unparseable threshold [soon] gives an error that carries no type, where
    a validation error carries [VALIDATION_ERROR]; and on a cluster without
    sessions [runClean] with that threshold succeeds. *)
Lemma least_threshold_and_untyped_error :
  @ParseDuration scripted "-9223372036854775808ns" = inl minDuration
  /\ map Info.Name
         (List.filter (fun pod => Info.CreationTimestamp pod <? noon - minDuration) threeRecords)
     = ["debug-a"; "debug-b"; "debug-c"]
  /\ fst (@filterPodsForCleanup scripted (olderThan "-9223372036854775808ns") threeRecords
            (@start scripted goneCluster))
     = Val ([], None)
  /\ (exists err,
        fst (@filterPodsForCleanup scripted (olderThan "soon") threeRecords
               (@start scripted goneCluster))
        = Val ([], Some err)
        /\ errorTypeOf err = None
        /\ errorTypeOf (NewValidationError "older-than" "soon" "invalid duration")
           = Some ErrorTypeValidation)
  /\ fst (@runClean scripted (olderThan "soon") (@start scripted emptyCluster)) = Val None.
Proof.
  split; [reflexivity|]. split; [vm_compute; reflexivity|].
  split; [vm_compute; reflexivity|]. split.
  - eexists. split; [vm_compute; reflexivity|]. split; reflexivity.
  - vm_compute. reflexivity.
Qed.

(** ** Session Locator *)

(** C8. A query answered with the "No resources found" shape, or by an
    empty cluster (an empty item list for the listing, no name at all for
    the per-target search), is a success with zero records: the listing
    returns the empty list and the search returns no name, both without an
    error. *)
Theorem no_resources_is_empty_success {Env : Outside}
        (f : Flags) (config : DebugConfig) (w : World) :
  (forall r w',
      ExecCommand "kubectl" (listArgs f) None w = (r, w') ->
      noResourcesFound r \/ (cmdErr r = None /\ UnmarshalPodList (cmdStdout r) = inl []) ->
      fst (getDebugPods f (start w)) = Val ([], None))
  /\ (forall r w',
        ExecCommand "kubectl" (findArgs config) None w = (r, w') ->
        noResourcesFound r \/ (cmdErr r = None /\ cmdStdout r = "") ->
        fst (findExistingDebugPod config (start w)) = Val ("", None)).
Proof.
  split; intros r w' E H.
  - unfold getDebugPods, runCommand.
    rewrite (bind_call _ _ _ (start w) r w' E).
    destruct H as [[Herr Hmsg] | [Herr Hdoc]].
    + destruct (cmdErr r); [|congruence]. rewrite Hmsg. reflexivity.
    + rewrite Herr, Hdoc. reflexivity.
  - unfold findExistingDebugPod, runCommand.
    rewrite (bind_call _ _ _ (start w) r w' E).
    destruct H as [[Herr Hmsg] | [Herr Hout]].
    + destruct (cmdErr r); [|congruence]. rewrite Hmsg. reflexivity.
    + rewrite Herr, Hout. reflexivity.
Qed.

Lemma no_resources_is_empty_success_witness :
  fst (@getDebugPods scripted (olderThan "") (@start scripted emptyCluster)) = Val ([], None)
  /\ fst (@findExistingDebugPod scripted (webConfig OperationCopyPod false)
            (@start scripted emptyCluster)) = Val ("", None).
Proof.
  destruct (@no_resources_is_empty_success scripted (olderThan "")
              (webConfig OperationCopyPod false) emptyCluster) as [H1 H2].
  split.
  - apply (H1 (succeeded "{items:[]}") emptyCluster); [reflexivity|].
    right. split; reflexivity.
  - apply (H2 (failed 1 "No resources found in default namespace.") emptyCluster);
      [reflexivity|].
    left. split; [discriminate | reflexivity].
Defined.

(** ** Collision check *)


Lemma reverse_involutive s : reverse (reverse s) = s.
Proof.
  unfold reverse.
  rewrite list_ascii_of_string_of_list_ascii, rev_involutive.
  apply string_of_list_ascii_of_string.
Qed.

Lemma trimFront_nameByte backwards c s :
  nameByte c = true -> trimFront backwards (String c s) = String c s.
Proof.
  unfold nameByte. intros H. apply andb_prop in H. destruct H as [Hs Hn].
  apply Nat.ltb_lt in Hn. cbn [trimFront].
  destruct (isSpace c); [discriminate Hs|].
  assert (E : forall n : nat, (128 <= n)%nat -> Nat.eqb (nat_of_ascii c) n = false)
    by (intros n Hle; apply Nat.eqb_neq; lia).
  assert (L : Nat.leb 128 (nat_of_ascii c) = false) by (apply Nat.leb_gt; lia).
  destruct s as [|c2 [|c3 s3]]; [reflexivity | |].
  - unfold isSpace2. cbv zeta. rewrite !E by lia.
    destruct backwards; rewrite ?andb_false_r; reflexivity.
  - unfold isSpace2, isSpace3. cbv zeta. rewrite !E, L by lia.
    destruct backwards; cbn [andb orb]; rewrite ?andb_false_r; reflexivity.
Qed.

Lemma trimFront_asciiName backwards s :
  asciiName s = true -> trimFront backwards s = s.
Proof.
  destruct s as [|c s]; [reflexivity|]. unfold asciiName.
  cbn [list_ascii_of_string forallb].
  intros H. apply andb_prop in H. apply trimFront_nameByte, H.
Qed.

Lemma asciiName_reverse s : asciiName s = true -> asciiName (reverse s) = true.
Proof.
  unfold asciiName, reverse. rewrite list_ascii_of_string_of_list_ascii.
  rewrite !forallb_forall. intros H c Hc. apply H, in_rev, Hc.
Qed.

Lemma asciiName_oneLine s : asciiName s = true -> oneLine s = true.
Proof.
  unfold asciiName. induction s as [|c s IH]; [reflexivity|].
  cbn [list_ascii_of_string forallb oneLine]. intros H.
  apply andb_prop in H. destruct H as [Hc Hs]. rewrite (IH Hs), andb_true_r.
  destruct (Ascii.eqb_spec c newline) as [->|]; [discriminate Hc | reflexivity].
Qed.

(** A name made of ASCII bytes other than white space, as the names of
    Kubernetes objects are, is a clean one: [TrimSpace] leaves it alone. *)
Lemma asciiName_clean s : s <> "" -> asciiName s = true -> cleanName s.
Proof.
  intros Hne H. split; [exact Hne|]. split; [apply asciiName_oneLine, H|].
  unfold TrimSpace, TrimLeft, TrimRight.
  rewrite (trimFront_asciiName false s H).
  rewrite (trimFront_asciiName true _ (asciiName_reverse s H)).
  apply reverse_involutive.
Qed.

(** White space beyond ASCII is trimmed as well: the answer [2] followed by
    a no-break space (U+00A0, the bytes C2 A0) and the line feed is the
    choice [2], and an ideographic space (U+3000, the bytes E3 80 80) before
    a name is dropped. *)
Lemma TrimSpace_unicode :
  TrimSpace (String "2" (String (ascii_of_nat 194) (String (ascii_of_nat 160)
               (String newline "")))) = "2"
  /\ TrimSpace (String (ascii_of_nat 227) (String (ascii_of_nat 128)
                  (String (ascii_of_nat 128) "web"))) = "web".
Proof. split; reflexivity. Qed.


Section Collision.

Context {Env : Outside}.





Lemma bind_assoc {A B C} (m : M A) (f : A -> M B) (g : B -> M C) s :
  bind (bind m f) g s = bind m (fun x => bind (f x) g) s.
Proof. unfold bind. destruct (m s) as [[a | c | msg] s']; reflexivity. Qed.


End Collision.

Section Ephemeral.

Context {Env : Outside}.


End Ephemeral.




(** ** Deleting a session *)

Section Deleting.

Context {Env : Outside}.

Lemma yields_ret {A} (a : A) (R : A -> list Event -> Prop) :
  R a [] -> yields (ret a) R.
Proof.
  intros H s. exists []. simpl. rewrite app_nil_r. split; [reflexivity|].
  intros a' E. injection E as <-. exact H.
Qed.

(** Steps that run no delete command do not change what a failed delete
    decides. *)
Lemma yields_after {A} (m : M A) (k : A -> M (option error)) what :
  produces m (fun _ => True) (fun e => deletes e = false) ->
  (forall a, yields (k a) (deleteDecides what)) ->
  yields (bind m k) (deleteDecides what).
Proof.
  intros Hm Hk s. unfold bind.
  destruct (Hm s) as (evs1 & Ht1 & Hq1 & _).
  destruct (m s) as [[a | c | msg] s1]; simpl in *.
  - destruct (Hk a s1) as (evs2 & Ht2 & HR).
    exists (evs1 ++ evs2)%list. rewrite Ht2, Ht1, app_assoc. split; [reflexivity|].
    intros res Hres name args r e HIn He.
    apply in_app_or in HIn. destruct HIn as [HIn|HIn].
    + pose proof (proj1 (List.Forall_forall _ _) Hq1 _ HIn) as Hd. discriminate Hd.
    + eapply HR; eauto.
  - exists evs1. split; [exact Ht1|]. intros a E. discriminate E.
  - exists evs1. split; [exact Ht1|]. intros a E. discriminate E.
Qed.

(** The teardown itself: [deletePod], then the check of its error. *)
Lemma yields_teardown config debugPodName what :
  yields (bind (deletePod config debugPodName)
               (fun err => match err with
                           | Some err => ret (Some (WrapKubectlError err what))
                           | None => ret None
                           end))
         (deleteDecides what).
Proof.
  intros s. unfold deletePod, runCommand. rewrite bind_assoc.
  destruct (ExecCommand "kubectl" (deleteArgs debugPodName (Namespace config)) None (world s))
    as [r w'] eqn:E.
  rewrite (bind_call _ _ _ s r w' E), bind_ret.
  exists [Ran "kubectl" (deleteArgs debugPodName (Namespace config)) None r].
  destruct (cmdErr r) as [err|] eqn:Er; simpl; (split; [reflexivity|]);
    intros res Hres name args r' e [HIn|[]] He; injection HIn as <- <- <-;
    injection Hres as <-; congruence.
Qed.

(** A closing step that runs no delete command (removing the temporary
    file) leaves the decision as it is. *)
Lemma yields_finally (m : M (option error)) (fin : M unit) what :
  yields m (deleteDecides what) ->
  produces fin (fun _ => True) (fun e => deletes e = false) ->
  yields (bind m (fun result => bind fin (fun _ => ret result))) (deleteDecides what).
Proof.
  intros Hm Hfin s. unfold bind.
  destruct (Hm s) as (evs1 & Ht1 & HR).
  destruct (m s) as [[res | c | msg] s1]; simpl in *.
  - destruct (Hfin s1) as (evs2 & Ht2 & Hq2 & _).
    destruct (fin s1) as [[[] | c | msg] s2]; simpl in *.
    + exists (evs1 ++ evs2)%list. rewrite Ht2, Ht1, app_assoc. split; [reflexivity|].
      intros res' Hres name args r e HIn He. unfold ret in Hres. simpl in Hres.
      injection Hres as <-.
      apply in_app_or in HIn. destruct HIn as [HIn|HIn].
      * eapply HR; eauto.
      * pose proof (proj1 (List.Forall_forall _ _) Hq2 _ HIn) as Hd. discriminate Hd.
    + exists (evs1 ++ evs2)%list. rewrite Ht2, Ht1, app_assoc. split; [reflexivity|].
      intros a E. discriminate E.
    + exists (evs1 ++ evs2)%list. rewrite Ht2, Ht1, app_assoc. split; [reflexivity|].
      intros a E. discriminate E.
  - exists evs1. split; [exact Ht1|]. intros a E. discriminate E.
  - exists evs1. split; [exact Ht1|]. intros a E. discriminate E.
Qed.

Lemma notDelete_lookup e : lookupOnly e -> deletes e = false.
Proof.
  destruct e as [n [|a args] [p|] r| | | | | | |]; simpl; try contradiction; auto.
  intros ->. reflexivity.
Qed.

Lemma deleteDecides_nil what res : deleteDecides what res [].
Proof. intros name args r e []. Qed.

End Deleting.

(** One step of a [yields] proof about [deleteDecides]. *)
Ltac yields_step :=
  first
    [ apply yields_ret; apply deleteDecides_nil
    | apply yields_teardown
    | apply yields_after;
      [ solve [ pose proof notDelete_lookup as HQ; produces_auto HQ ] | intros ]
    | apply yields_finally;
      [ | solve [ pose proof notDelete_lookup as HQ; produces_auto HQ ] ]
    | match goal with
      | |- yields (match ?x with _ => _ end) _ => destruct x
      | |- yields (let '(_, _) := ?x in _) _ => destruct x
      | |- yields (if ?b then _ else _) _ => destruct b
      end
    | progress cbv beta zeta ].

Ltac produces_known ::=
  match goal with
  | |- produces (generateUniqueName _) _ _ => apply generateUniqueName_quiet
  | |- produces (getTargetPodSecurityContext _) _ _ =>
      apply getTargetPodSecurityContext_lookup
  end; auto using notDelete_lookup.

Section Teardown.

Context {Env : Outside}.

Lemma useExistingPod_teardown config existingPod :
  yields (useExistingPod config existingPod) (deleteDecides "delete pod").
Proof.
  unfold useExistingPod, attachToPod, execArgs.
  repeat yields_step.
Qed.

Lemma createPodCopy_teardown config :
  yields (createPodCopy config) (deleteDecides "delete debug pod").
Proof.
  unfold createPodCopy. repeat yields_step.
Qed.

(** The reclamation loop attempts every pod, whatever the earlier
    deletions answered, and counts the deletions that succeeded. *)
Lemma deleteAll_counts pods n s :
  exists evs,
    trace (snd (deleteAll pods n s)) = (trace s ++ evs)%list
    /\ fst (deleteAll pods n s) = Val (n + deleted evs)
    /\ commands evs
       = map (fun pod => deleteArgs (Info.Name pod) (Info.Namespace pod)) pods.
Proof.
  revert n s. induction pods as [|pod rest IH]; intros n s; simpl.
  - exists []. simpl. rewrite app_nil_r, Z.add_0_r. auto.
  - unfold deletePodByName, runCommand. rewrite bind_assoc.
    destruct (ExecCommand "kubectl" (deleteArgs (Info.Name pod) (Info.Namespace pod)) None
                (world s)) as [r w'] eqn:E.
    rewrite (bind_call _ _ _ s r w' E), bind_ret.
    destruct (cmdErr r) as [err|] eqn:Er; unfold fmt_Printf; rewrite bind_emit;
      match goal with
      | |- context [deleteAll rest ?m ?st] => destruct (IH m st) as (evs & Ht & Hv & Hc)
      end;
      eexists (Ran "kubectl" (deleteArgs (Info.Name pod) (Info.Namespace pod)) None r
               :: Printed _ :: evs);
      (split; [rewrite Ht; simpl; rewrite <- !app_assoc; reflexivity|]);
      (split; [rewrite Hv; simpl; rewrite Er; f_equal; lia | simpl; rewrite Hc; reflexivity]).
Qed.

End Teardown.

(** C3, as amended. A delete reports what kubectl answered: when the delete
    command fails, for whatever reason (the pod being gone included),
    [deletePod] and [deletePodByName] return that failure.  The signal
    handler then logs a warning and exits with status 1, the deferred
    teardown of a standalone session logs a warning, the teardown after an
    attach ([useExistingPod], [createPodCopy]) makes the operation fail
    with the wrapped error, and the reclamation loop goes on with the other
    pods and leaves the failed one out of its count. *)
Theorem delete_failure_is_reported {Env : Outside}
        (config : DebugConfig) (debugPodName : string)
        (w w' : World) (r : CmdResult) (e : error) :
  ExecCommand "kubectl" (deleteArgs debugPodName (Namespace config)) None w = (r, w') ->
  cmdErr r = Some e ->
  fst (deletePod config debugPodName (start w)) = Val (Some e)
  /\ fst (deletePodByName debugPodName (Namespace config) (start w)) = Val (Some e)
  /\ (fst (signalHandler config debugPodName (start w)) = Exited 1
      /\ In (Logged ("Warning: Failed to delete pod " +:+ debugPodName +:+ ": " +:+ Error e))
            (trace (snd (signalHandler config debugPodName (start w)))))
  /\ In (Logged ("Warning: Failed to delete debug pod: " +:+ Error e))
        (trace (snd (cleanupDebugPod config debugPodName (start w))))
  /\ (forall existingPod w0 res,
         fst (useExistingPod config existingPod (start w0)) = Val res ->
         deleteDecides "delete pod" res
                       (trace (snd (useExistingPod config existingPod (start w0)))))
  /\ (forall w0 res,
         fst (createPodCopy config (start w0)) = Val res ->
         deleteDecides "delete debug pod" res
                       (trace (snd (createPodCopy config (start w0)))))
  /\ (forall pods w0,
         fst (deleteAll pods 0 (start w0))
         = Val (deleted (trace (snd (deleteAll pods 0 (start w0)))))
         /\ commands (trace (snd (deleteAll pods 0 (start w0))))
            = map (fun pod => deleteArgs (Info.Name pod) (Info.Namespace pod)) pods).
Proof.
  intros E He.
  assert (Hd : forall (k : option error -> M unit) st,
             world st = w ->
             bind (deletePod config debugPodName) k st
             = k (Some e)
                 {| world := w';
                    trace := (trace st ++ [Ran "kubectl"
                                               (deleteArgs debugPodName (Namespace config))
                                               None r])%list |}).
  { intros k st Hw. unfold deletePod, runCommand. rewrite bind_assoc.
    rewrite <- Hw in E.
    rewrite (bind_call _ _ _ st r w' E), bind_ret, He. reflexivity. }
  repeat split.
  - unfold deletePod, runCommand. rewrite (bind_call _ _ _ (start w) r w' E), He. reflexivity.
  - unfold deletePodByName, runCommand.
    rewrite (bind_call _ _ _ (start w) r w' E), He. reflexivity.
  - unfold signalHandler, log_Printf. rewrite bind_emit, Hd by reflexivity. reflexivity.
  - unfold signalHandler, log_Printf. rewrite bind_emit, Hd by reflexivity.
    rewrite bind_emit. simpl. auto.
  - unfold cleanupDebugPod, log_Printf, runCommand. rewrite bind_emit.
    match goal with
    | |- context [bind (call ?ev ?f) ?k ?st] => rewrite (bind_call ev f k st r w' E)
    end.
    rewrite He. simpl. auto.
  - intros existingPod w0 res Hres.
    destruct (useExistingPod_teardown config existingPod (start w0)) as (evs & Ht & HR).
    rewrite Ht. exact (HR res Hres).
  - intros w0 res Hres.
    destruct (createPodCopy_teardown config (start w0)) as (evs & Ht & HR).
    rewrite Ht. exact (HR res Hres).
  - destruct (deleteAll_counts pods 0 (start w0)) as (evs & Ht & Hv & Hc).
    rewrite Hv, Ht. reflexivity.
  - destruct (deleteAll_counts pods 0 (start w0)) as (evs & Ht & Hv & Hc).
    rewrite Ht. exact Hc.
Qed.


Lemma delete_failure_is_reported_witness :
  fst (@deletePod scripted (webConfig OperationCopyPod true) "debug-web-1"
         (@start scripted goneCluster))
  = Val (Some (ExitError 1 "exit status 1"))
  /\ fst (@deletePodByName scripted "debug-web-1" "default" (@start scripted goneCluster))
     = Val (Some (ExitError 1 "exit status 1"))
  /\ fst (@signalHandler scripted (webConfig OperationCopyPod true) "debug-web-1"
            (@start scripted goneCluster))
     = Exited 1.
Proof.
  destruct (@delete_failure_is_reported scripted (webConfig OperationCopyPod true)
              "debug-web-1" goneCluster goneCluster
              (failed 1 "Error from server (NotFound): pods not found")
              (ExitError 1 "exit status 1") eq_refl eq_refl)
    as (H1 & H2 & (H3 & _) & _).
  exact (conj H1 (conj H2 H3)).
Defined.

(** C3, counterexample. The cluster answers every delete with "not found";
    [deletePod] returns the failure, the teardown after attaching to the
    existing pod fails with it, and the reclamation loop counts no pod as
    deleted. *)
Lemma delete_not_found_is_failure :
  Contains (cmdStderr (answerOf (answers goneCluster) (otherwise goneCluster)
                                (deleteArgs "debug-web-1" "default")))
           "not found" = true
  /\ fst (@deletePod scripted (webConfig OperationCopyPod true) "debug-web-1"
            (@start scripted goneCluster))
     = Val (Some (ExitError 1 "exit status 1"))
  /\ fst (@useExistingPod scripted (webConfig OperationCopyPod true) "debug-web-1"
            (@start scripted goneCluster))
     = Val (Some (Detailed ErrorTypeKubectl "Failed to delete pod" "" ""
                           (Some (ExitError 1 "exit status 1"))))
  /\ fst (@deleteAll scripted [staleRecord] 0 (@start scripted goneCluster)) = Val 0.
Proof. repeat split; vm_compute; reflexivity. Qed.

(** C2, counterexample. In ephemeral-container mode against [web], the one
    command that brings the session into being is [kubectl debug] with no
    manifest, and nothing gives it the discovery label. *)
Lemma ephemeral_session_is_unlabelled :
  List.filter creates
    (trace (snd (@Execute scripted (webConfig OperationAddContainer false)
                          (@start scripted (webCluster [])))))
  = [Ran "kubectl"
         ["debug"; "web"; "-n"; "default"; "--image"; "debug:latest"; "--target=app";
          "--profile=general"; "-i"; "-t"; "--"] None (succeeded "")]
  /\ labelsGiven
       (Ran "kubectl"
            ["debug"; "web"; "-n"; "default"; "--image"; "debug:latest"; "--target=app";
             "--profile=general"; "-i"; "-t"; "--"] None (succeeded ""))
     !! "debug-tool/type" = None.
Proof. split; vm_compute; reflexivity. Qed.

(** C4, the code at the failing input. In pod-copy mode against [web]
    (labels [app=x] and [pod-template-hash=abc], deployment selector
    [app=x]) the program runs the four commands below: it reads neither
    the target's labels nor the deployment's selector, and it gives the copy
    no label.  The derivation the claim describes is what the builder
    [createDebugPod] does for the same target. *)
Theorem pod_copy_derives_no_labels :
  let copy := trace (snd (@Execute scripted (webConfig OperationCopyPod false)
                                   (@start scripted (webCluster ["2"])))) in
  let built := trace (snd (@createDebugPod scripted (webConfig OperationStandalone false)
                                           (@start scripted (webCluster [])))) in
  commands copy
  = [ ["get"; "pod"; "web"; "-n"; "default"];
      ["get"; "pod"; "-n"; "default"; "-l";
       "debug-tool/type=debug-pod,debug-tool/target=web"; "--no-headers"; "-o";
       "custom-columns=:metadata.name"];
      ["get"; "pod"; "web"; "-n"; "default"; "-o"; "json"];
      ["debug"; "web"; "-n"; "default"; "--image"; "debug:latest"; "--share-processes";
       "--copy-to=debug-web-120000-0042"; "--custom=/tmp/debug-custom-1.yaml";
       "--profile=general"; "-i"; "-t"; "--"] ]
  /\ forallb (fun e => bool_decide (labelsGiven e = ∅)) copy = true
  /\ map labelsGiven (List.filter creates built)
     = [ <["debug-tool/type" := "debug-pod"]>
           (<["debug-tool/target" := "web"]> {["pod-template-hash" := "abc"]}) ].
Proof. cbv zeta. repeat split; vm_compute; reflexivity. Qed.
